(** * Session launch profiles and the main-process tracker

    A shallow embedding of
      - src/cpp/core/r_util/RSessionLaunchProfile.cpp
        (launch-profile JSON codec, password encryption protocol), and
      - src/cpp/session/SessionMainProcess.cpp
        (fork flag and main-thread identity),
    together with the properties the design document states about them.

    Conventions.  [std::string] is [string] (a sequence of 8-bit characters),
    [std::vector<unsigned char>] is [list byte], fixed-width integers are [Z]
    with their wrap-around written out, [double] is the binary64 instance of
    the IEEE-754 specification of the standard library.  A C++ function that
    writes through a reference or pointer returns the new content of what it
    may write, next to its [Error]. *)

From Stdlib Require Import ZArith NArith List String Ascii Bool Lia.
From Stdlib Require Import Strings.Byte.
From Stdlib Require Import Floats.SpecFloat.
Import ListNotations.

Set Warnings "-register-all".

Local Open Scope string_scope.
Local Open Scope list_scope.

(* ===================================================================== *)
(** * Errors *)
(* ===================================================================== *)

(** [json::errc]: the two codes a structured read produces. *)
Inductive json_errc : Type :=
| ParamMissing
| ParamTypeMismatch.

(** [core::Error].  A default-constructed [Error] and [Success()] carry no
    error; [ERROR_LOCATION] is dropped.  [systemError] stands for whatever a
    collaborator (random source, cipher, base64 codec) reports. *)
Inductive Error : Type :=
| Success : Error
| systemError (code : Z) : Error
| jsonError (code : json_errc) : Error
| unknownError (message : string) (cause : Error) : Error.

(** [if (error)] *)
Definition isError (error : Error) : bool :=
  match error with
  | Success => false
  | _ => true
  end.

(* ===================================================================== *)
(** * core::algorithm, on strings *)
(* ===================================================================== *)

Module algorithm.

(** Number of occurrences of the character [c] in [s]. *)
Fixpoint occurrences (c : ascii) (s : string) : nat :=
  match s with
  | EmptyString => 0
  | String x s' => (if Ascii.eqb x c then 1 else 0) + occurrences c s'
  end.

(** Modelled from the spec: [core::algorithm::split] (core/Algorithm.hpp) is
    not under src/.  The spec has the key "split on the delimiter" and counts
    the parts, so that a string with n delimiters has n+1 parts, the empty
    string has one (empty) part.  [split_aux delim skip s] scans [s] from the
    left and returns the part in progress and the parts after it; [skip]
    counts the characters of a delimiter just found that are still to be
    passed over. *)
Fixpoint split_aux (delim : string) (skip : nat) (s : string)
  : string * list string :=
  match s with
  | EmptyString => (EmptyString, [])
  | String c s' =>
      match skip with
      | S k => split_aux delim k s'
      | O =>
          if prefix delim s
          then (EmptyString,
                let (p, ps) := split_aux delim (String.length delim - 1) s' in
                p :: ps)
          else let (p, ps) := split_aux delim 0 s' in (String c p, ps)
      end
  end.

Definition split (s : string) (delim : string) : list string :=
  match delim with
  | EmptyString => [s]
  | _ => let (p, ps) := split_aux delim 0 s in p :: ps
  end.

(** Modelled from the spec: [core::algorithm::join] (core/Algorithm.hpp) is
    not under src/.  The spec gives the joined key as
    [base64PasswordKey + "|" + ivPasswordKey]: the parts in order with the
    delimiter between neighbours. *)
Fixpoint join (parts : list string) (delim : string) : string :=
  match parts with
  | [] => EmptyString
  | [p] => p
  | p :: rest => p ++ delim ++ join rest delim
  end.

End algorithm.

(* ===================================================================== *)
(** * The launch profile *)
(* ===================================================================== *)

(** Pairs of strings, as [toStringPairList] produces them: the type of the
    argument list and of the environment of a process configuration. *)
Definition StringPairList : Type := list (string * string).

(** Modelled from the spec: the declaration of [SessionScope] is not under
    src/; the spec has a scope as a (project, id) pair of strings. *)
Record SessionScope : Type := {
  project : string;
  id : string
}.

(** Modelled from the spec: [SessionScope::fromProjectId] is not under src/;
    the spec has the scope "reconstructed structurally from (project, id)". *)
Definition fromProjectId (project id : string) : SessionScope :=
  {| project := project; id := id |}.

(** Modelled from the spec: the declaration of [SessionContext] is not
    under src/; it has the two members the codec uses. *)
Record SessionContext : Type := {
  username : string;
  scope : SessionScope
}.

(** Modelled from the spec: [RLimitType] is not under src/; the spec has
    every limit an unsigned 64-bit integer ([is_uint64] below). *)
Definition RLimitType : Type := Z.

(** Modelled from the spec: [core::system::CpuAffinity] is not under src/;
    "position = logical CPU index and value = included in affinity mask". *)
Definition CpuAffinity : Type := list bool.

(** Modelled from the spec: the declaration of [ProcessLimits] is not under
    src/; the members are the ones the codec reads and writes, [priority]
    a C [int]. *)
Record ProcessLimits : Type := {
  priority : Z;
  memoryLimitBytes : RLimitType;
  stackLimitBytes : RLimitType;
  userProcessesLimit : RLimitType;
  cpuLimit : RLimitType;
  niceLimit : RLimitType;
  filesLimit : RLimitType;
  cpuAffinity : CpuAffinity
}.

(** Modelled from the spec: the declaration of [ProcessConfig] is not under
    src/.  The stream behaviour is an enumeration, converted from and to
    [int] by the codec, and kept as its integer here; arguments and
    environment are what [toStringPairList()] returns. *)
Record ProcessConfig : Type := {
  args : StringPairList;
  environment : StringPairList;
  stdInput : string;
  stdStreamBehavior : Z;
  limits : ProcessLimits
}.

(** Modelled from the spec: the declaration of [SessionLaunchProfile] is
    not under src/; the members are the ones the codec and the password
    protocol use. *)
Record SessionLaunchProfile : Type := {
  context : SessionContext;
  password : string;
  encryptionKey : string;
  executablePath : string;
  config : ProcessConfig
}.

(** Assignments to the two fields the password protocol writes. *)
Definition set_password (profile : SessionLaunchProfile) (v : string)
  : SessionLaunchProfile :=
  {| context := context profile;
     password := v;
     encryptionKey := encryptionKey profile;
     executablePath := executablePath profile;
     config := config profile |}.

Definition set_encryptionKey (profile : SessionLaunchProfile) (v : string)
  : SessionLaunchProfile :=
  {| context := context profile;
     password := password profile;
     encryptionKey := v;
     executablePath := executablePath profile;
     config := config profile |}.

(* ===================================================================== *)
(** * Password encryption protocol *)
(* ===================================================================== *)

Section PasswordProtocol.

(** The collaborators of [core::system::crypto].  [World] is the state of
    the random source; a call that draws from it returns the next state.
    Every collaborator returns its [Error] and the content of its output
    arguments after the call. *)
Variable World : Type.

(** [random(length, &out)] *)
Variable random : nat -> World -> Error * list byte * World.

(** [encryptDataAsBase64EncodedString(input, key, &iv, &encrypted)]; the
    third and fourth arguments are what the two output strings hold when
    the call is made. *)
Variable encryptDataAsBase64EncodedString :
  string -> string -> string -> string -> World ->
  Error * string * string * World.

(** [base64Encode(data, length, &out)] *)
Variable base64Encode : list byte -> Error * string.

(** [base64Decode(input, &out)] *)
Variable base64Decode : string -> Error * list byte.

(** [decryptBase64EncodedString(input, key, iv, &decrypted)] *)
Variable decryptBase64EncodedString :
  string -> string -> string -> Error * string.

(** [encryptProfilePassword(profile, encryptedPassword)]: the result holds
    the returned error, the profile and [*encryptedPassword] after the
    call, and the next state of the random source.  [encryptedPassword]
    points to a string of the caller outside [profile], the "value to be
    delivered out-of-band" of the design document. *)
Definition encryptProfilePassword
    (profile : SessionLaunchProfile) (encryptedPassword : string) (w : World)
  : Error * SessionLaunchProfile * string * World :=
  (* generate a 256-bit key, convert it to a string *)
  let '(error, passwordKey, w) := random 32 w in
  if isError error then (error, profile, encryptedPassword, w) else
  let passwordKeyStr := string_of_list_byte passwordKey in
  (* encrypt the password *)
  let '(error, ivPasswordKey, encryptedPassword, w) :=
    encryptDataAsBase64EncodedString
      (password profile) passwordKeyStr EmptyString encryptedPassword w in
  if isError error then (error, profile, encryptedPassword, w) else
  let '(error, base64PasswordKey) := base64Encode passwordKey in
  if isError error then (error, profile, encryptedPassword, w) else
  let encryptionKey :=
    algorithm.join [base64PasswordKey; ivPasswordKey] "|" in
  let profile := set_password profile "" in
  let profile := set_encryptionKey profile encryptionKey in
  (Success, profile, encryptedPassword, w).

(** [decryptProfilePassword(profile, encryptedPassword)]: the returned
    error and the profile after the call. *)
Definition decryptProfilePassword
    (profile : SessionLaunchProfile) (encryptedPassword : string)
  : Error * SessionLaunchProfile :=
  let passwordKeyParts := algorithm.split (encryptionKey profile) "|" in
  if negb (Nat.eqb (List.length passwordKeyParts) 2) then
    (unknownError "Profile password encryption key invalid format" Success,
     profile)
  else
  let passwordKey := nth 0 passwordKeyParts EmptyString in
  let ivPasswordKey := nth 1 passwordKeyParts EmptyString in
  let '(error, passwordKeyBin) := base64Decode passwordKey in
  if isError error then (error, profile) else
  let passwordKeyBinStr := string_of_list_byte passwordKeyBin in
  (* decrypt the actual password with the password key+iv *)
  let '(error, decryptedPassword) :=
    decryptBase64EncodedString
      encryptedPassword passwordKeyBinStr ivPasswordKey in
  if isError error then (error, profile) else
  let profile := set_password profile decryptedPassword in
  let profile := set_encryptionKey profile "" in
  (Success, profile).

End PasswordProtocol.

Arguments encryptProfilePassword {World} random
  encryptDataAsBase64EncodedString base64Encode profile encryptedPassword w.

(* ===================================================================== *)
(** * A reference implementation of the crypto collaborators *)
(* ===================================================================== *)

(** The protocol is verified against the contracts of its collaborators.
    This module gives one implementation that meets them: a random source
    that hands out the bytes of a finite pool, the base64 codec of RFC 4648,
    and a byte-wise XOR stream standing in for the block cipher. *)
Module reference.

Definition World : Type := list byte.

Definition random (length : nat) (w : World) : Error * list byte * World :=
  if Nat.leb length (List.length w)
  then (Success, firstn length w, skipn length w)
  else (systemError 5, [], w).

Definition alphabet : string :=
  "ABCDEFGHIJKLMNOPQRSTUVWXYZabcdefghijklmnopqrstuvwxyz0123456789+/".

Definition pad : ascii := "="%char.

Definition sextet_char (n : N) : ascii :=
  match String.get (N.to_nat n) alphabet with
  | Some c => c
  | None => pad
  end.

Fixpoint position (c : ascii) (s : string) : option N :=
  match s with
  | EmptyString => None
  | String x s' =>
      if Ascii.eqb x c then Some 0%N else option_map N.succ (position c s')
  end.

Definition char_sextet (c : ascii) : option N := position c alphabet.

Definition byte_of_N (n : N) : byte :=
  match Byte.of_N n with
  | Some b => b
  | None => x00
  end.

Fixpoint base64_encode (data : list byte) : string :=
  match data with
  | [] => EmptyString
  | [a] =>
      let a := Byte.to_N a in
      String (sextet_char (a / 4))
        (String (sextet_char ((a mod 4) * 16))
           (String pad (String pad EmptyString)))
  | [a; b] =>
      let a := Byte.to_N a in
      let b := Byte.to_N b in
      String (sextet_char (a / 4))
        (String (sextet_char ((a mod 4) * 16 + b / 16))
           (String (sextet_char ((b mod 16) * 4))
              (String pad EmptyString)))
  | a :: b :: c :: rest =>
      let a := Byte.to_N a in
      let b := Byte.to_N b in
      let c := Byte.to_N c in
      String (sextet_char (a / 4))
        (String (sextet_char ((a mod 4) * 16 + b / 16))
           (String (sextet_char ((b mod 16) * 4 + c / 64))
              (String (sextet_char (c mod 64))
                 (base64_encode rest))))
  end%N.

Fixpoint base64_decode (s : string) : option (list byte) :=
  match s with
  | EmptyString => Some []
  | String c1 (String c2 (String c3 (String c4 rest))) =>
      match char_sextet c1, char_sextet c2 with
      | Some s1, Some s2 =>
          let b1 := byte_of_N (s1 * 4 + s2 / 16) in
          if Ascii.eqb c4 pad then
            match rest with
            | EmptyString =>
                if Ascii.eqb c3 pad then Some [b1]
                else
                  match char_sextet c3 with
                  | Some s3 =>
                      Some [b1; byte_of_N ((s2 mod 16) * 16 + s3 / 4)]
                  | None => None
                  end
            | _ => None
            end
          else
            match char_sextet c3, char_sextet c4 with
            | Some s3, Some s4 =>
                option_map
                  (fun tail =>
                     b1 :: byte_of_N ((s2 mod 16) * 16 + s3 / 4)
                        :: byte_of_N ((s3 mod 4) * 64 + s4) :: tail)
                  (base64_decode rest)
            | _, _ => None
            end
      | _, _ => None
      end
  | _ => None
  end%N.

Definition base64Encode (data : list byte) : Error * string :=
  (Success, base64_encode data).

Definition base64Decode (input : string) : Error * list byte :=
  match base64_decode input with
  | Some data => (Success, data)
  | None => (systemError 22, [])
  end.

Definition xor_byte (a b : byte) : byte :=
  byte_of_N (N.lxor (Byte.to_N a) (Byte.to_N b)).

(** One mask byte out of key and initialisation vector, XORed onto every
    byte of the data. *)
Definition mask (key iv : list byte) : byte :=
  fold_right xor_byte x00 (key ++ iv).

Definition xor_stream (key iv data : list byte) : list byte :=
  map (xor_byte (mask key iv)) data.

Definition encryptDataAsBase64EncodedString
    (input key iv0 encrypted0 : string) (w : World)
  : Error * string * string * World :=
  let '(error, iv, w) := random 16 w in
  if isError error then (error, iv0, encrypted0, w) else
  let encrypted :=
    xor_stream (list_byte_of_string key) iv (list_byte_of_string input) in
  (Success, base64_encode iv, base64_encode encrypted, w).

Definition decryptBase64EncodedString (input key iv : string)
  : Error * string :=
  match base64_decode iv, base64_decode input with
  | Some ivBin, Some encrypted =>
      (Success,
       string_of_list_byte
         (xor_stream (list_byte_of_string key) ivBin encrypted))
  | _, _ => (systemError 22, EmptyString)
  end.

Definition encrypt := encryptProfilePassword
  random encryptDataAsBase64EncodedString base64Encode.

Definition decrypt := decryptProfilePassword
  base64Decode decryptBase64EncodedString.

(** A pool of 48 bytes: enough for one key and one initialisation vector. *)
Definition pool : World :=
  map (fun n => byte_of_N (N.of_nat ((7 * n + 3) mod 256))) (seq 0 48).

End reference.

(* ===================================================================== *)
(** * The structured-value library *)
(* ===================================================================== *)

(** The json library (shared_core/json, core/json/JsonRpc.hpp) is a
    collaborator of the codec: "a structured-value
    (object/array/string/number/bool) encode-decode library with typed
    accessors and a ParamTypeMismatch-style error kind", in the words of the
    design document. *)
Module json.

(** C++ [double]: IEEE-754 binary64. *)
Definition double : Type := spec_float.

Definition prec : Z := 53.
Definition emax : Z := 1024.

(** The conversion of an integer to [double]: the nearest binary64 value,
    ties to even. *)
Definition double_of_integer (n : Z) : double :=
  binary_normalize prec emax n 0 false.

(** Modelled from the spec: [json::Value] is not under src/; the spec lists
    the kinds of structured value as object, array, string, number and
    bool.  A number is an integer or a [double]. *)
Inductive Value : Type :=
| VNull
| VBool (b : bool)
| VInteger (n : Z)
| VReal (d : double)
| VString (s : string)
| VArray (elements : list Value)
| VObject (members : list (string * Value)).

Definition Array : Type := list Value.
Definition Object : Type := list (string * Value).

(** Modelled from the spec: [json::Object::operator[]] is not under src/.
    [object[name] = value] replaces the member of that name, or appends a
    new member: the keys of the wire shape are the ones assigned. *)
Fixpoint set (object : Object) (name : string) (value : Value) : Object :=
  match object with
  | [] => [(name, value)]
  | (n, v) :: rest =>
      if String.eqb n name then (n, value) :: rest
      else (n, v) :: set rest name value
  end.

(** Modelled from the spec: the lookup of a member by name, which a
    structured read starts with, is not under src/. *)
Fixpoint find (object : Object) (name : string) : option Value :=
  match object with
  | [] => None
  | (n, v) :: rest => if String.eqb n name then Some v else find rest name
  end.

(** Modelled from the spec: [json::toJsonArray] is not under src/; the spec
    has the affinity encoded "as an ordered array of booleans". *)
Definition toJsonArray (v : list bool) : Array := map VBool v.

(** Two's-complement reduction to a C [int]: what the accessor of an [int]
    is taken to return for an integer outside the range.  The properties
    below concern integers within it. *)
Definition int (n : Z) : Z := (n + 2 ^ 31) mod 2 ^ 32 - 2 ^ 31.

(** Modelled from the spec: the typed accessors are not under src/.  Each
    is [isType<T>(value)] followed by the getter of [T]; [None] is a type
    mismatch.  The spec has a limit "read as a numeric type", whatever kind
    of number the wire holds. *)
Definition asString (value : Value) : option string :=
  match value with VString s => Some s | _ => None end.

Definition asObject (value : Value) : option Object :=
  match value with VObject o => Some o | _ => None end.

Definition asArray (value : Value) : option Array :=
  match value with VArray a => Some a | _ => None end.

Definition asBool (value : Value) : option bool :=
  match value with VBool b => Some b | _ => None end.

Definition asInt (value : Value) : option Z :=
  match value with VInteger n => Some (int n) | _ => None end.

Definition asDouble (value : Value) : option double :=
  match value with
  | VInteger n => Some (double_of_integer n)
  | VReal d => Some d
  | _ => None
  end.

(** One [name, &target] pair of a [readObject] call, over the variables [S]
    the call may write. *)
Definition Field (S : Type) : Type := string * (Value -> S -> option S).

Definition field {S T : Type} (name : string) (as_ : Value -> option T)
    (assign : S -> T -> S) : Field S :=
  (name, fun value s => option_map (assign s) (as_ value)).

(** Modelled from the spec: [json::readObject] (core/json/JsonRpc.hpp) is
    not under src/.  [readObject(object, name1, &target1, name2, &target2,
    ...)] reads the fields "in one pass" and returns the error of a missing
    or mistyped field.  The spec leaves open whether the fields after a
    failing one are still read; here the read returns at the first error,
    with the targets before it written and the others holding what they
    held.  The properties below do not depend on that choice: they are
    about reads in which every field, or no field, is found. *)
Fixpoint readObject {S : Type} (object : Object) (fields : list (Field S))
    (s : S) : Error * S :=
  match fields with
  | [] => (Success, s)
  | (name, read) :: rest =>
      match find object name with
      | None => (jsonError ParamMissing, s)
      | Some value =>
          match read value s with
          | None => (jsonError ParamTypeMismatch, s)
          | Some s' => readObject object rest s'
          end
      end
  end.

End json.

(* ===================================================================== *)
(** * The launch-profile codec *)
(* ===================================================================== *)

(** [boost::uint64_t(x)]: conversion to an unsigned 64-bit integer. *)
Definition uint64_t (x : Z) : Z := x mod 2 ^ 64.

(** The integer part of a [double], towards zero; nothing for infinities and
    NaN. *)
Definition truncate (d : json.double) : option Z :=
  match d with
  | S754_zero _ => Some 0%Z
  | S754_finite s m e =>
      let magnitude := Z.shiftl (Z.pos m) e in
      Some (if s then (- magnitude)%Z else magnitude)
  | S754_infinity _ => None
  | S754_nan => None
  end.

(** The local variables of [sessionLaunchProfileFromJson] that the read of
    the config object writes. *)
Module locals.

Record t : Type := {
  argsJson : json.Array;
  envJson : json.Object;
  stdInput : string;
  stdStreamBehavior : Z;
  priority : Z;
  memoryLimitBytes : json.double;
  stackLimitBytes : json.double;
  userProcessesLimit : json.double;
  cpuLimit : json.double;
  niceLimit : json.double;
  filesLimit : json.double
}.

Definition set_argsJson (l : t) (v : json.Array) : t :=
  let '(Build_t _ b c d e f g h i j k) := l in Build_t v b c d e f g h i j k.
Definition set_envJson (l : t) (v : json.Object) : t :=
  let '(Build_t a _ c d e f g h i j k) := l in Build_t a v c d e f g h i j k.
Definition set_stdInput (l : t) (v : string) : t :=
  let '(Build_t a b _ d e f g h i j k) := l in Build_t a b v d e f g h i j k.
Definition set_stdStreamBehavior (l : t) (v : Z) : t :=
  let '(Build_t a b c _ e f g h i j k) := l in Build_t a b c v e f g h i j k.
Definition set_priority (l : t) (v : Z) : t :=
  let '(Build_t a b c d _ f g h i j k) := l in Build_t a b c d v f g h i j k.
Definition set_memoryLimitBytes (l : t) (v : json.double) : t :=
  let '(Build_t a b c d e _ g h i j k) := l in Build_t a b c d e v g h i j k.
Definition set_stackLimitBytes (l : t) (v : json.double) : t :=
  let '(Build_t a b c d e f _ h i j k) := l in Build_t a b c d e f v h i j k.
Definition set_userProcessesLimit (l : t) (v : json.double) : t :=
  let '(Build_t a b c d e f g _ i j k) := l in Build_t a b c d e f g v i j k.
Definition set_cpuLimit (l : t) (v : json.double) : t :=
  let '(Build_t a b c d e f g h _ j k) := l in Build_t a b c d e f g h v j k.
Definition set_niceLimit (l : t) (v : json.double) : t :=
  let '(Build_t a b c d e f g h i _ k) := l in Build_t a b c d e f g h i v k.
Definition set_filesLimit (l : t) (v : json.double) : t :=
  let '(Build_t a b c d e f g h i j _) := l in Build_t a b c d e f g h i j v.

End locals.

(** What the six [double] locals hold before anything is assigned to them:
    they are declared without an initialiser. *)
Record Indeterminate : Type := {
  ind_memoryLimitBytes : json.double;
  ind_stackLimitBytes : json.double;
  ind_userProcessesLimit : json.double;
  ind_cpuLimit : json.double;
  ind_niceLimit : json.double;
  ind_filesLimit : json.double
}.

(** A default-constructed [SessionLaunchProfile]. *)
Definition default_profile : SessionLaunchProfile :=
  {| context := {| username := ""; scope := {| project := ""; id := "" |} |};
     password := "";
     encryptionKey := "";
     executablePath := "";
     config :=
       {| args := [];
          environment := [];
          stdInput := "";
          stdStreamBehavior := 0;
          limits :=
            {| priority := 0;
               memoryLimitBytes := 0%Z;
               stackLimitBytes := 0%Z;
               userProcessesLimit := 0%Z;
               cpuLimit := 0%Z;
               niceLimit := 0%Z;
               filesLimit := 0%Z;
               cpuAffinity := [] |} |} |}.

Definition set_username (context : SessionContext) (v : string)
  : SessionContext :=
  {| username := v; scope := scope context |}.

Definition set_scope (context : SessionContext) (v : SessionScope)
  : SessionContext :=
  {| username := username context; scope := v |}.

Definition set_context (profile : SessionLaunchProfile) (v : SessionContext)
  : SessionLaunchProfile :=
  {| context := v;
     password := password profile;
     encryptionKey := encryptionKey profile;
     executablePath := executablePath profile;
     config := config profile |}.

Definition set_executablePath (profile : SessionLaunchProfile) (v : string)
  : SessionLaunchProfile :=
  {| context := context profile;
     password := password profile;
     encryptionKey := encryptionKey profile;
     executablePath := v;
     config := config profile |}.

Definition set_config (profile : SessionLaunchProfile) (v : ProcessConfig)
  : SessionLaunchProfile :=
  {| context := context profile;
     password := password profile;
     encryptionKey := encryptionKey profile;
     executablePath := executablePath profile;
     config := v |}.

(** [if (error) LOG_ERROR(error);] on the log of the process. *)
Definition LOG_ERROR (error : Error) (log : list Error) : list Error :=
  if isError error then log ++ [error] else log.

Section Codec.

(** The conversions between a list of string pairs and a json array or
    object belong to the json library; the codec only calls them. *)

(** [json::Array(const StringPairList&)] *)
Variable Array_of_StringPairList : StringPairList -> json.Array.

(** [json::Array::toStringPairList()] *)
Variable Array_toStringPairList : json.Array -> StringPairList.

(** [json::Object(const StringPairList&)] *)
Variable Object_of_StringPairList : StringPairList -> json.Object.

(** [json::Object::toStringPairList()] *)
Variable Object_toStringPairList : json.Object -> StringPairList.

(** The content of the uninitialised locals. *)
Variable indeterminate : Indeterminate.

(** The conversion of a [double] to [RLimitType] is defined by the language
    when the integer part fits the unsigned 64-bit type; [out_of_range] is
    what the platform yields otherwise. *)
Variable out_of_range : json.double -> RLimitType.

Definition RLimitType_of_double (d : json.double) : RLimitType :=
  match truncate d with
  | Some z => if ((0 <=? z) && (z <? 2 ^ 64))%Z then z else out_of_range d
  | None => out_of_range d
  end.

Definition contextAsJson (context : SessionContext) : json.Object :=
  let scopeJson : json.Object := [] in
  let scopeJson :=
    json.set scopeJson "username" (json.VString (username context)) in
  let scopeJson :=
    json.set scopeJson "project" (json.VString (project (scope context))) in
  let scopeJson :=
    json.set scopeJson "id" (json.VString (id (scope context))) in
  scopeJson.

(** [contextFromJson(contextJson, pContext)]: the error and [*pContext]
    after the call. *)
Definition contextFromJson (contextJson : json.Object)
    (context : SessionContext) : Error * SessionContext :=
  let '(error, (context, project, id)) :=
    json.readObject contextJson
      [ json.field "username" json.asString
          (fun '(c, p, i) v => (set_username c v, p, i));
        json.field "project" json.asString
          (fun '(c, p, i) v => (c, v, i));
        json.field "id" json.asString
          (fun '(c, p, i) v => (c, p, v)) ]
      (context, EmptyString, EmptyString) in
  if isError error then (error, context) else
  let context := set_scope context (fromProjectId project id) in
  (Success, context).

(** The loop of [cpuAffinityFromJson], [affinity] being what has been pushed
    so far. *)
Fixpoint cpuAffinityFromJson_loop (affinityJson : json.Array)
    (affinity : CpuAffinity) : Error * CpuAffinity :=
  match affinityJson with
  | [] => (Success, affinity)
  | val :: rest =>
      match json.asBool val with
      | None => (jsonError ParamTypeMismatch, affinity)
      | Some b => cpuAffinityFromJson_loop rest (affinity ++ [b])
      end
  end.

(** [cpuAffinityFromJson(affinityJson, pAffinity)]: the error and
    [*pAffinity] after the call. *)
Definition cpuAffinityFromJson (affinityJson : json.Array)
    (affinity : CpuAffinity) : Error * CpuAffinity :=
  let affinity : CpuAffinity := [] in
  cpuAffinityFromJson_loop affinityJson affinity.

(** [json::Value(boost::uint64_t)]; [None] stands for an exception leaving
    the constructor, which the library's constructor of a number never
    raises. *)
Definition Value_of_uint64 (n : Z) : option json.Value :=
  Some (json.VInteger n).

Definition toJson (limit : RLimitType) : json.Value :=
  match Value_of_uint64 (uint64_t limit) with
  | Some value => value
  | None => json.VInteger 0
  end.

Definition sessionLaunchProfileToJson (profile : SessionLaunchProfile)
  : json.Object :=
  let profileJson : json.Object := [] in
  let profileJson :=
    json.set profileJson "context"
      (json.VObject (contextAsJson (context profile))) in
  let profileJson :=
    json.set profileJson "password" (json.VString (password profile)) in
  let profileJson :=
    json.set profileJson "encryptionKey"
      (json.VString (encryptionKey profile)) in
  let profileJson :=
    json.set profileJson "executablePath"
      (json.VString (executablePath profile)) in
  let cfg := config profile in
  let configJson : json.Object := [] in
  let configJson :=
    json.set configJson "args"
      (json.VArray (Array_of_StringPairList (args cfg))) in
  let configJson :=
    json.set configJson "environment"
      (json.VObject (Object_of_StringPairList (environment cfg))) in
  let configJson :=
    json.set configJson "stdInput" (json.VString (stdInput cfg)) in
  let configJson :=
    json.set configJson "stdStreamBehavior"
      (json.VInteger (stdStreamBehavior cfg)) in
  let configJson :=
    json.set configJson "priority"
      (json.VInteger (priority (limits cfg))) in
  let configJson :=
    json.set configJson "memoryLimitBytes"
      (toJson (memoryLimitBytes (limits cfg))) in
  let configJson :=
    json.set configJson "stackLimitBytes"
      (toJson (stackLimitBytes (limits cfg))) in
  let configJson :=
    json.set configJson "userProcessesLimit"
      (toJson (userProcessesLimit (limits cfg))) in
  let configJson :=
    json.set configJson "cpuLimit" (toJson (cpuLimit (limits cfg))) in
  let configJson :=
    json.set configJson "niceLimit" (toJson (niceLimit (limits cfg))) in
  let configJson :=
    json.set configJson "filesLimit" (toJson (filesLimit (limits cfg))) in
  let configJson :=
    json.set configJson "cpuAffinity"
      (json.VArray (json.toJsonArray (cpuAffinity (limits cfg)))) in
  let profileJson :=
    json.set profileJson "config" (json.VObject configJson) in
  profileJson.

(** [sessionLaunchProfileFromJson(jsonProfile)]: the profile returned and
    the errors logged on the way. *)
Definition sessionLaunchProfileFromJson (jsonProfile : json.Object)
  : SessionLaunchProfile * list Error :=
  let profile := default_profile in
  let log : list Error := [] in
  (* read top level fields *)
  let '(error, (contextJson, profile, configJson)) :=
    json.readObject jsonProfile
      [ json.field "context" json.asObject
          (fun '(_, p, c) v => (v, p, c));
        json.field "password" json.asString
          (fun '(x, p, c) v => (x, set_password p v, c));
        json.field "encryptionKey" json.asString
          (fun '(x, p, c) v => (x, set_encryptionKey p v, c));
        json.field "executablePath" json.asString
          (fun '(x, p, c) v => (x, set_executablePath p v, c));
        json.field "config" json.asObject
          (fun '(x, p, _) v => (x, p, v)) ]
      (([] : json.Object), profile, ([] : json.Object)) in
  let log := LOG_ERROR error log in
  (* read context object *)
  let '(error, context) := contextFromJson contextJson (context profile) in
  let profile := set_context profile context in
  let log := LOG_ERROR error log in
  (* read config object *)
  let l : locals.t :=
    {| locals.argsJson := [];
       locals.envJson := [];
       locals.stdInput := EmptyString;
       locals.stdStreamBehavior := 0;
       locals.priority := 0;
       locals.memoryLimitBytes := ind_memoryLimitBytes indeterminate;
       locals.stackLimitBytes := ind_stackLimitBytes indeterminate;
       locals.userProcessesLimit := ind_userProcessesLimit indeterminate;
       locals.cpuLimit := ind_cpuLimit indeterminate;
       locals.niceLimit := ind_niceLimit indeterminate;
       locals.filesLimit := ind_filesLimit indeterminate |} in
  let '(error, l) :=
    json.readObject configJson
      [ json.field "args" json.asArray locals.set_argsJson;
        json.field "environment" json.asObject locals.set_envJson;
        json.field "stdInput" json.asString locals.set_stdInput;
        json.field "stdStreamBehavior" json.asInt
          locals.set_stdStreamBehavior;
        json.field "priority" json.asInt locals.set_priority;
        json.field "memoryLimitBytes" json.asDouble
          locals.set_memoryLimitBytes;
        json.field "stackLimitBytes" json.asDouble
          locals.set_stackLimitBytes;
        json.field "userProcessesLimit" json.asDouble
          locals.set_userProcessesLimit;
        json.field "cpuLimit" json.asDouble locals.set_cpuLimit;
        json.field "niceLimit" json.asDouble locals.set_niceLimit;
        json.field "filesLimit" json.asDouble locals.set_filesLimit ]
      l in
  let log := LOG_ERROR error log in
  (* read and convert cpu affinity *)
  let cpuAffinity : CpuAffinity := [] in
  let '(error, cpuAffinityJson) :=
    json.readObject configJson
      [ json.field "cpuAffinity" json.asArray (fun _ v => v) ]
      ([] : json.Array) in
  let log := LOG_ERROR error log in
  let '(error, cpuAffinity) :=
    cpuAffinityFromJson cpuAffinityJson cpuAffinity in
  let cpuAffinity : CpuAffinity :=
    if isError error then [] else cpuAffinity in
  let log := LOG_ERROR error log in
  (* populate config *)
  let config :=
    {| args := Array_toStringPairList (locals.argsJson l);
       environment := Object_toStringPairList (locals.envJson l);
       stdInput := locals.stdInput l;
       stdStreamBehavior := locals.stdStreamBehavior l;
       limits :=
         {| priority := locals.priority l;
            memoryLimitBytes :=
              RLimitType_of_double (locals.memoryLimitBytes l);
            stackLimitBytes :=
              RLimitType_of_double (locals.stackLimitBytes l);
            userProcessesLimit :=
              RLimitType_of_double (locals.userProcessesLimit l);
            cpuLimit := RLimitType_of_double (locals.cpuLimit l);
            niceLimit := RLimitType_of_double (locals.niceLimit l);
            filesLimit := RLimitType_of_double (locals.filesLimit l);
            cpuAffinity := cpuAffinity |} |} in
  let profile := set_config profile config in
  (* return profile *)
  (profile, log).

End Codec.

(* ===================================================================== *)
(** * The main-process tracker *)
(* ===================================================================== *)

Module main_process.

(** [boost::thread::id] of a running thread. *)
Definition thread_id : Type := nat.

(** The two build targets: the fork handlers exist when [_WIN32] is not
    defined. *)
Inductive Platform : Type :=
| Unix
| Win32.

(** The state of one process: the three variables of the anonymous
    namespace, the handler triples registered with [pthread_atfork], and
    the messages logged.  [s_mainThreadId] is [None] while it holds the
    default-constructed id; [t_isMainThread] gives, per thread, what the
    thread-specific pointer holds: null ([None]) or the address of a
    [bool]. *)
Inductive LogEntry : Type :=
| logged_error (error : Error)
| logged_message (message : string).

Record State : Type := {
  s_mainThreadId : option thread_id;
  s_wasForked : bool;
  t_isMainThread : thread_id -> option bool;
  atfork : nat;
  log : list LogEntry
}.

(** The state at process start. *)
Definition initial : State :=
  {| s_mainThreadId := None;
     s_wasForked := false;
     t_isMainThread := fun _ => None;
     atfork := 0;
     log := [] |}.

(** Whether the thread-specific pointer of thread [self] is set. *)
Definition has_flag (s : State) (self : thread_id) : bool :=
  match t_isMainThread s self with
  | Some _ => true
  | None => false
  end.

(** [boost::this_thread::get_id() == s_mainThreadId], on thread [self]. *)
Definition is_main_id (self : thread_id) (s : State) : bool :=
  match s_mainThreadId s with
  | Some main => Nat.eqb self main
  | None => false
  end.

Definition wasForked (s : State) : bool := s_wasForked s.

Definition prepareFork (self : thread_id) (s : State) : State :=
  if negb (is_main_id self s) then s else s.

Definition atForkParent (self : thread_id) (s : State) : State :=
  if negb (is_main_id self s) then s else s.

Definition atForkChild (s : State) : State :=
  {| s_mainThreadId := s_mainThreadId s;
     s_wasForked := true;
     t_isMainThread := t_isMainThread s;
     atfork := atfork s;
     log := log s |}.

Definition write_log (entry : LogEntry) (s : State) : State :=
  {| s_mainThreadId := s_mainThreadId s;
     s_wasForked := s_wasForked s;
     t_isMainThread := t_isMainThread s;
     atfork := atfork s;
     log := log s ++ [entry] |}.

Definition LOG_ERROR (error : Error) (s : State) : State :=
  write_log (logged_error error) s.

Definition LOG_ERROR_MESSAGE (message : string) (s : State) : State :=
  write_log (logged_message message) s.

(** [setupForkHandlers()]; [rc] is what [pthread_atfork] returns, 0 when
    the three handlers have been registered, and [errno] the error number
    it leaves otherwise. *)
Definition setupForkHandlers (platform : Platform) (rc errno : Z)
    (s : State) : State :=
  match platform with
  | Unix =>
      if negb (Z.eqb rc 0)
      then LOG_ERROR (systemError errno) s
      else {| s_mainThreadId := s_mainThreadId s;
              s_wasForked := s_wasForked s;
              t_isMainThread := t_isMainThread s;
              atfork := S (atfork s);
              log := log s |}
  | Win32 => s
  end.

Definition sysIsMainThread (self : thread_id) (s : State) : bool :=
  is_main_id self s.

(** [isMainThread()] on thread [self].  [res] is initialised from the
    pointer [t_isMainThread.get()]: true exactly when it is not null. *)
Definition isMainThread (self : thread_id) (s : State) : bool * State :=
  let res :=
    match t_isMainThread s self with
    | Some _ => true
    | None => false
    end in
  if negb (Bool.eqb res (sysIsMainThread self s))
  then (res, LOG_ERROR_MESSAGE "isMainThreadCheck - wrong result!" s)
  else (res, s).

(** [initThreadId()] on thread [self].  The call that hands [isMainThread]
    to the R execution library leaves the state of this module alone. *)
Definition initThreadId (self : thread_id) (s : State) : State :=
  {| s_mainThreadId := Some self;
     s_wasForked := s_wasForked s;
     t_isMainThread :=
       fun t => if Nat.eqb t self then Some true else t_isMainThread s t;
     atfork := atfork s;
     log := log s |}.

(** [haveActiveChildren()], over the answers of the process supervisor and
    of the authoring module. *)
Definition haveActiveChildren (hasActiveChildren hasRunningChildren : bool)
  : bool :=
  hasActiveChildren || hasRunningChildren.

(** What happens to the process: calls of the functions of the module on
    some thread, and forks.  [fork_parent self] is a [fork()] issued by
    thread [self] after which this process carries on as the parent,
    [fork_child self] one after which it carries on as the child; either
    way the registered handlers run, once per registration. *)
Inductive Event : Type :=
| call_setupForkHandlers (rc errno : Z)
| call_initThreadId (self : thread_id)
| call_isMainThread (self : thread_id)
| call_wasForked
| fork_parent (self : thread_id)
| fork_child (self : thread_id).

Definition step (platform : Platform) (ev : Event) (s : State) : State :=
  match ev with
  | call_setupForkHandlers rc errno =>
      setupForkHandlers platform rc errno s
  | call_initThreadId self => initThreadId self s
  | call_isMainThread self => snd (isMainThread self s)
  | call_wasForked => s
  | fork_parent self =>
      Nat.iter (atfork s) (atForkParent self)
        (Nat.iter (atfork s) (prepareFork self) s)
  | fork_child self =>
      Nat.iter (atfork s) atForkChild
        (Nat.iter (atfork s) (prepareFork self) s)
  end.

Fixpoint run (platform : Platform) (events : list Event) (s : State)
  : State :=
  match events with
  | [] => s
  | ev :: rest => run platform rest (step platform ev s)
  end.

(** How many times [atForkChild] runs during [events], started in [s]. *)
Fixpoint child_hook_runs (platform : Platform) (events : list Event)
    (s : State) : nat :=
  match events with
  | [] => 0
  | ev :: rest =>
      match ev with
      | fork_child _ => atfork s
      | _ => 0
      end + child_hook_runs platform rest (step platform ev s)
  end.

(** The threads that called [initThreadId] during [events], in order. *)
Fixpoint init_calls (events : list Event) : list thread_id :=
  match events with
  | [] => []
  | call_initThreadId self :: rest => self :: init_calls rest
  | _ :: rest => init_calls rest
  end.

(** A life of a process: handlers registered, thread 7 initialises, thread
    3 asks, thread 7 forks and the process goes on as the child. *)
Definition sample_events : list Event :=
  [ call_setupForkHandlers 0 0;
    call_initThreadId 7;
    call_isMainThread 3;
    fork_child 7;
    call_wasForked ].

(** Whether, during [events], the process went on as the child of a fork at
    a time when a registration of the handlers had succeeded; [registered]
    tells whether one had succeeded before [events]. *)
Fixpoint forked_after_setup (registered : bool) (events : list Event)
  : bool :=
  match events with
  | [] => false
  | call_setupForkHandlers rc _ :: rest =>
      forked_after_setup (registered || Z.eqb rc 0) rest
  | fork_child _ :: rest => registered || forked_after_setup registered rest
  | _ :: rest => forked_after_setup registered rest
  end.

(** Whether thread [self] was the last to call [initThreadId] during
    [events]. *)
Definition called_last (self : thread_id) (events : list Event) : bool :=
  match last (map Some (init_calls events)) None with
  | Some main => Nat.eqb self main
  | None => false
  end.

End main_process.

(* ===================================================================== *)
(** * Well-formed profiles and a reference for the pair-list conversions *)
(* ===================================================================== *)

(** The values of a C [int] and of an unsigned 64-bit integer. *)
Definition is_int (z : Z) : Prop := (- 2 ^ 31 <= z < 2 ^ 31)%Z.
Definition is_uint64 (z : Z) : Prop := (0 <= z < 2 ^ 64)%Z.


(** A profile whose numbers are values of their C++ types. *)
Definition well_typed (profile : SessionLaunchProfile) : Prop :=
  let l := limits (config profile) in
  is_int (stdStreamBehavior (config profile)) /\
  is_int (priority l) /\
  is_uint64 (memoryLimitBytes l) /\
  is_uint64 (stackLimitBytes l) /\
  is_uint64 (userProcessesLimit l) /\
  is_uint64 (cpuLimit l) /\
  is_uint64 (niceLimit l) /\
  is_uint64 (filesLimit l).

(** An integer that a [double] holds exactly: converting it to [double] and
    taking the integer part gives it back. *)
Definition exact_in_double (n : Z) : Prop :=
  truncate (json.double_of_integer n) = Some n.

Definition limits_exact_in_double (profile : SessionLaunchProfile) : Prop :=
  let l := limits (config profile) in
  exact_in_double (memoryLimitBytes l) /\
  exact_in_double (stackLimitBytes l) /\
  exact_in_double (userProcessesLimit l) /\
  exact_in_double (cpuLimit l) /\
  exact_in_double (niceLimit l) /\
  exact_in_double (filesLimit l).

(** One implementation of the four conversions: a pair is the array element
    "first=second", cut again at the first "="; an object gets one string
    member per pair. *)
Module reference_json.

Definition Array_of_StringPairList (pairs : StringPairList) : json.Array :=
  map (fun pair => json.VString (fst pair ++ "=" ++ snd pair)) pairs.

Fixpoint cut (s : string) : string * string :=
  match s with
  | EmptyString => (EmptyString, EmptyString)
  | String c s' =>
      if Ascii.eqb c "=" then (EmptyString, s')
      else let (a, b) := cut s' in (String c a, b)
  end.

Definition Array_toStringPairList (array : json.Array) : StringPairList :=
  flat_map
    (fun value =>
       match json.asString value with
       | Some s => [cut s]
       | None => []
       end)
    array.

Definition Object_of_StringPairList (pairs : StringPairList) : json.Object :=
  fold_left
    (fun object pair => json.set object (fst pair) (json.VString (snd pair)))
    pairs [].

Definition Object_toStringPairList (object : json.Object) : StringPairList :=
  flat_map
    (fun member =>
       match json.asString (snd member) with
       | Some s => [(fst member, s)]
       | None => []
       end)
    object.

Definition encode : SessionLaunchProfile -> json.Object :=
  sessionLaunchProfileToJson Array_of_StringPairList Object_of_StringPairList.

(** Decoding where the uninitialised locals happen to hold [garbage] and an
    out-of-range conversion yields 0. *)
Definition decode (garbage : Indeterminate) (jsonProfile : json.Object)
  : SessionLaunchProfile * list Error :=
  sessionLaunchProfileFromJson
    Array_toStringPairList Object_toStringPairList
    garbage (fun _ => 0%Z) jsonProfile.

End reference_json.

(** The [double] 1.0, and locals that all hold it. *)
Definition one : json.double := S754_finite false (2 ^ 52) (-52).

Definition ones : Indeterminate :=
  {| ind_memoryLimitBytes := one;
     ind_stackLimitBytes := one;
     ind_userProcessesLimit := one;
     ind_cpuLimit := one;
     ind_niceLimit := one;
     ind_filesLimit := one |}.

(* ===================================================================== *)
(** * A sample profile *)
(* ===================================================================== *)

(** The profile of the end-to-end scenario of the design document. *)
Definition sample_profile : SessionLaunchProfile :=
  {| context :=
       {| username := "alice";
          scope := fromProjectId "/home/alice/analysis" "7f3a" |};
     password := "s3cr3t";
     encryptionKey := "";
     executablePath := "/usr/lib/rstudio-server/bin/rsession";
     config :=
       {| args := [("--flag", "")];
          environment := [("HOME", "/home/alice"); ("LANG", "C")];
          stdInput := "";
          stdStreamBehavior := 1;
          limits :=
            {| priority := 5;
               memoryLimitBytes := 2000000000%Z;
               stackLimitBytes := 0%Z;
               userProcessesLimit := 0%Z;
               cpuLimit := 0%Z;
               niceLimit := 0%Z;
               filesLimit := 1024%Z;
               cpuAffinity := [true; false; true] |} |} |}.

(** The sample profile after encryption with the reference collaborators,
    and the encrypted password that travels separately. *)
Definition sample_encrypted_profile : SessionLaunchProfile :=
  snd (fst (fst (reference.encrypt sample_profile "" reference.pool))).

Definition sample_encrypted_password : string :=
  snd (fst (reference.encrypt sample_profile "" reference.pool)).

(** A profile whose key has two delimiters. *)
Definition malformed_profile : SessionLaunchProfile :=
  set_encryptionKey sample_profile "a|b|c".

(** The sample profile with a memory limit of 2^53 + 1 bytes. *)
Definition large_limit_profile : SessionLaunchProfile :=
  set_config sample_profile
    {| args := args (config sample_profile);
       environment := environment (config sample_profile);
       stdInput := stdInput (config sample_profile);
       stdStreamBehavior := stdStreamBehavior (config sample_profile);
       limits :=
         {| priority := 5;
            memoryLimitBytes := 9007199254740993%Z;
            stackLimitBytes := 0%Z;
            userProcessesLimit := 0%Z;
            cpuLimit := 0%Z;
            niceLimit := 0%Z;
            filesLimit := 1024%Z;
            cpuAffinity := [true; false; true] |} |}.

(* ===================================================================== *)
(** * The reads of sessionLaunchProfileFromJson, one by one *)
(* ===================================================================== *)

(** The four structured reads of [sessionLaunchProfileFromJson], each under
    a name of its own, with the variables it starts from. *)

(** The read of the top-level fields: context object, profile, config
    object. *)
Definition read_top_level (jsonProfile : json.Object)
  : Error * (json.Object * SessionLaunchProfile * json.Object) :=
  json.readObject jsonProfile
    [ json.field "context" json.asObject
        (fun '(_, p, c) v => (v, p, c));
      json.field "password" json.asString
        (fun '(x, p, c) v => (x, set_password p v, c));
      json.field "encryptionKey" json.asString
        (fun '(x, p, c) v => (x, set_encryptionKey p v, c));
      json.field "executablePath" json.asString
        (fun '(x, p, c) v => (x, set_executablePath p v, c));
      json.field "config" json.asObject
        (fun '(x, p, _) v => (x, p, v)) ]
    (([] : json.Object), default_profile, ([] : json.Object)).

(** The locals as declared: five initialised, six not. *)
Definition initial_locals (indeterminate : Indeterminate) : locals.t :=
  {| locals.argsJson := [];
     locals.envJson := [];
     locals.stdInput := EmptyString;
     locals.stdStreamBehavior := 0;
     locals.priority := 0;
     locals.memoryLimitBytes := ind_memoryLimitBytes indeterminate;
     locals.stackLimitBytes := ind_stackLimitBytes indeterminate;
     locals.userProcessesLimit := ind_userProcessesLimit indeterminate;
     locals.cpuLimit := ind_cpuLimit indeterminate;
     locals.niceLimit := ind_niceLimit indeterminate;
     locals.filesLimit := ind_filesLimit indeterminate |}.

(** The read of the config object. *)
Definition read_config (configJson : json.Object) (l : locals.t)
  : Error * locals.t :=
  json.readObject configJson
    [ json.field "args" json.asArray locals.set_argsJson;
      json.field "environment" json.asObject locals.set_envJson;
      json.field "stdInput" json.asString locals.set_stdInput;
      json.field "stdStreamBehavior" json.asInt
        locals.set_stdStreamBehavior;
      json.field "priority" json.asInt locals.set_priority;
      json.field "memoryLimitBytes" json.asDouble
        locals.set_memoryLimitBytes;
      json.field "stackLimitBytes" json.asDouble
        locals.set_stackLimitBytes;
      json.field "userProcessesLimit" json.asDouble
        locals.set_userProcessesLimit;
      json.field "cpuLimit" json.asDouble locals.set_cpuLimit;
      json.field "niceLimit" json.asDouble locals.set_niceLimit;
      json.field "filesLimit" json.asDouble locals.set_filesLimit ]
    l.

(** The read of the affinity array. *)
Definition read_cpuAffinity (configJson : json.Object)
  : Error * json.Array :=
  json.readObject configJson
    [ json.field "cpuAffinity" json.asArray (fun _ v => v) ]
    ([] : json.Array).

(** A context object with a user name and nothing else. *)
Definition username_only : json.Object :=
  [("username", json.VString "bob")].

(** The affinity array [true, 1, false]. *)
Definition mixed_affinity : json.Array :=
  [json.VBool true; json.VInteger 1; json.VBool false].

(** The sample profile with the largest limit there is,
    [RLIM_INFINITY] where limits are 64 bits wide. *)
Definition unlimited_profile : SessionLaunchProfile :=
  set_config sample_profile
    {| args := args (config sample_profile);
       environment := environment (config sample_profile);
       stdInput := stdInput (config sample_profile);
       stdStreamBehavior := stdStreamBehavior (config sample_profile);
       limits :=
         {| priority := 5;
            memoryLimitBytes := 18446744073709551615%Z;
            stackLimitBytes := 0%Z;
            userProcessesLimit := 0%Z;
            cpuLimit := 0%Z;
            niceLimit := 0%Z;
            filesLimit := 1024%Z;
            cpuAffinity := [true; false; true] |} |}.

(** Locals that all hold a NaN. *)
Definition nans : Indeterminate :=
  {| ind_memoryLimitBytes := S754_nan;
     ind_stackLimitBytes := S754_nan;
     ind_userProcessesLimit := S754_nan;
     ind_cpuLimit := S754_nan;
     ind_niceLimit := S754_nan;
     ind_filesLimit := S754_nan |}.

(** The [double] 2^64. *)
Definition two_to_64 : json.double := S754_finite false (2 ^ 52) 12.

(** The six limits of [ProcessLimits]. *)
Definition limit_fields : list (ProcessLimits -> RLimitType) :=
  [ memoryLimitBytes; stackLimitBytes; userProcessesLimit;
    cpuLimit; niceLimit; filesLimit ].

(** The sample profile encrypted a second time, from a fresh pool. *)
Definition sample_twice_encrypted_profile : SessionLaunchProfile :=
  snd (fst (fst (reference.encrypt
                   sample_encrypted_profile "" reference.pool))).

Definition sample_second_encrypted_password : string :=
  snd (fst (reference.encrypt sample_encrypted_profile "" reference.pool)).

(* ===================================================================== *)
(** * Properties: errors and strings *)
(* ===================================================================== *)

Lemma isError_false (error : Error) :
  isError error = false <-> error = Success.
Proof. destruct error; simpl; split; congruence. Qed.

Lemma isError_true (error : Error) :
  isError error = true <-> error <> Success.
Proof. destruct error; simpl; split; congruence. Qed.

Lemma occurrences_app (c : ascii) (a b : string) :
  algorithm.occurrences c (a ++ b)
  = algorithm.occurrences c a + algorithm.occurrences c b.
Proof.
  induction a as [|x a IH]; simpl; [reflexivity|].
  rewrite IH. lia.
Qed.

(** One step of the scan for the delimiter of the key. *)
Lemma split_aux_bar (c : ascii) (s : string) :
  algorithm.split_aux "|" 0 (String c s)
  = if Ascii.eqb c "|"
    then (EmptyString,
          let (p, ps) := algorithm.split_aux "|" 0 s in p :: ps)
    else let (p, ps) := algorithm.split_aux "|" 0 s in (String c p, ps).
Proof.
  cbn [algorithm.split_aux prefix String.length Nat.sub].
  destruct (ascii_dec "|" c) as [E|E].
  - subst c. rewrite Ascii.eqb_refl. destruct s; reflexivity.
  - destruct (Ascii.eqb_spec c "|"); [congruence | reflexivity].
Qed.

(** A string with n delimiters splits into n+1 parts. *)
Lemma split_length (s : string) :
  List.length (algorithm.split s "|") = S (algorithm.occurrences "|" s).
Proof.
  unfold algorithm.split.
  induction s as [|c s IH].
  - reflexivity.
  - rewrite split_aux_bar.
    cbn [algorithm.occurrences].
    destruct (algorithm.split_aux "|" 0 s) as [p ps].
    destruct (Ascii.eqb c "|"); simpl in *; lia.
Qed.

Lemma split_aux_no_delimiter (s : string) :
  algorithm.occurrences "|" s = 0 ->
  algorithm.split_aux "|" 0 s = (s, []).
Proof.
  induction s as [|c s IH]; intros H.
  - reflexivity.
  - rewrite split_aux_bar. cbn [algorithm.occurrences] in H.
    destruct (Ascii.eqb c "|"); [discriminate|].
    rewrite IH by exact H. reflexivity.
Qed.

Lemma split_aux_one_delimiter (a b : string) :
  algorithm.occurrences "|" a = 0 ->
  algorithm.occurrences "|" b = 0 ->
  algorithm.split_aux "|" 0 (a ++ String "|" b) = (a, [b]).
Proof.
  intros Ha Hb.
  induction a as [|c a IH]; cbn [append]; rewrite split_aux_bar.
  - cbn [Ascii.eqb Bool.eqb].
    rewrite split_aux_no_delimiter by exact Hb. reflexivity.
  - cbn [algorithm.occurrences] in Ha.
    destruct (Ascii.eqb c "|"); [discriminate|].
    rewrite IH by exact Ha. reflexivity.
Qed.

(** Splitting undoes the join of two delimiter-free parts. *)
Lemma split_join (a b : string) :
  algorithm.occurrences "|" a = 0 ->
  algorithm.occurrences "|" b = 0 ->
  algorithm.split (algorithm.join [a; b] "|") "|" = [a; b].
Proof.
  intros Ha Hb. unfold algorithm.split. cbn [algorithm.join append].
  rewrite split_aux_one_delimiter by assumption. reflexivity.
Qed.

Lemma join_two_not_empty (a b : string) :
  algorithm.join [a; b] "|" <> EmptyString.
Proof.
  cbn [algorithm.join]. destruct a; discriminate.
Qed.

(* ===================================================================== *)
(** * Properties: the password encryption protocol *)
(* ===================================================================== *)

(** The case of a proof in which the function has left through one of its
    [if (error) return error;]: the result in hand is the early one. *)
Ltac early_return :=
  let H := fresh "H" in
  intros H; inversion H; subst; solve [discriminate | reflexivity].

Section PasswordProtocolProperties.

Variable World : Type.
Variable random : nat -> World -> Error * list byte * World.
Variable encryptDataAsBase64EncodedString :
  string -> string -> string -> string -> World ->
  Error * string * string * World.
Variable base64Encode : list byte -> Error * string.
Variable base64Decode : string -> Error * list byte.
Variable decryptBase64EncodedString :
  string -> string -> string -> Error * string.

Local Abbreviation encrypt :=
  (encryptProfilePassword
     random encryptDataAsBase64EncodedString base64Encode).
Local Abbreviation decrypt :=
  (decryptProfilePassword base64Decode decryptBase64EncodedString).

(** What a successful encryption went through. *)
Lemma encrypt_success_inv profile encrypted0 w profile' encrypted w' :
  encrypt profile encrypted0 w = (Success, profile', encrypted, w') ->
  exists passwordKey w1 ivPasswordKey base64PasswordKey,
    random 32 w = (Success, passwordKey, w1) /\
    encryptDataAsBase64EncodedString
      (password profile) (string_of_list_byte passwordKey)
      EmptyString encrypted0 w1
    = (Success, ivPasswordKey, encrypted, w') /\
    base64Encode passwordKey = (Success, base64PasswordKey) /\
    profile' =
      set_encryptionKey (set_password profile "")
        (algorithm.join [base64PasswordKey; ivPasswordKey] "|").
Proof.
  unfold encryptProfilePassword.
  destruct (random 32 w) as [[e1 passwordKey] w1].
  destruct (isError e1) eqn:E1; [early_return|].
  destruct (encryptDataAsBase64EncodedString _ _ _ _ _)
    as [[[e2 iv] enc] w2] eqn:Henc.
  destruct (isError e2) eqn:E2; [early_return|].
  destruct (base64Encode passwordKey) as [e3 b64] eqn:Hb64.
  destruct (isError e3) eqn:E3; [early_return|].
  intros H; inversion H; subst.
  apply isError_false in E1, E2, E3. subst.
  exists passwordKey, w1, iv, b64. auto.
Qed.

(** An encryption that reports an error has not written the profile. *)
Lemma encrypt_failure_inv profile encrypted0 w error profile' encrypted w' :
  encrypt profile encrypted0 w = (error, profile', encrypted, w') ->
  error <> Success ->
  profile' = profile.
Proof.
  unfold encryptProfilePassword.
  destruct (random 32 w) as [[e1 passwordKey] w1].
  destruct (isError e1); [early_return|].
  destruct (encryptDataAsBase64EncodedString _ _ _ _ _)
    as [[[e2 iv] enc] w2].
  destruct (isError e2); [early_return|].
  destruct (base64Encode passwordKey) as [e3 b64].
  destruct (isError e3); [early_return|].
  intros H; inversion H; subst. congruence.
Qed.

(** A decryption that reports an error has not written the profile. *)
Lemma decrypt_failure_inv profile encrypted error profile' :
  decrypt profile encrypted = (error, profile') ->
  error <> Success ->
  profile' = profile.
Proof.
  unfold decryptProfilePassword.
  destruct (negb _); [early_return|].
  destruct (base64Decode _) as [e1 keyBin].
  destruct (isError e1); [early_return|].
  destruct (decryptBase64EncodedString _ _ _) as [e2 decrypted].
  destruct (isError e2); [early_return|].
  intros H; inversion H; subst. congruence.
Qed.

(** C2.  Whenever [encryptProfilePassword] returns success, the password of
    the resulting profile is the empty string and its encryption key is not
    empty: it is the base64 text of the random key, the delimiter "|", and
    the base64 text of the initialisation vector the cipher returned. *)
Theorem encrypt_clears_password_sets_key
    profile encrypted0 w profile' encrypted w' :
  encrypt profile encrypted0 w = (Success, profile', encrypted, w') ->
  password profile' = EmptyString /\
  encryptionKey profile' <> EmptyString /\
  exists passwordKey w1 base64PasswordKey ivPasswordKey,
    random 32 w = (Success, passwordKey, w1) /\
    base64Encode passwordKey = (Success, base64PasswordKey) /\
    encryptDataAsBase64EncodedString
      (password profile) (string_of_list_byte passwordKey)
      EmptyString encrypted0 w1
    = (Success, ivPasswordKey, encrypted, w') /\
    encryptionKey profile' = (base64PasswordKey ++ "|" ++ ivPasswordKey)%string.
Proof.
  intros H.
  destruct (encrypt_success_inv _ _ _ _ _ _ H)
    as (key & w1 & iv & b64 & Hr & He & Hb & ->).
  split; [reflexivity|]. split.
  - cbn [encryptionKey set_encryptionKey]. apply join_two_not_empty.
  - exists key, w1, b64, iv. repeat split; assumption || reflexivity.
Qed.

(** C3.  Whenever [encryptProfilePassword] or [decryptProfilePassword]
    returns an error, whichever step it comes from, the profile after the
    call is the profile before the call. *)
Theorem error_leaves_profile_unchanged :
  (forall profile encrypted0 w error profile' encrypted w',
     encrypt profile encrypted0 w = (error, profile', encrypted, w') ->
     error <> Success ->
     profile' = profile) /\
  (forall profile encrypted error profile',
     decrypt profile encrypted = (error, profile') ->
     error <> Success ->
     profile' = profile).
Proof.
  split.
  - intros profile encrypted0 w error profile' encrypted w' H Herr.
    exact (encrypt_failure_inv _ _ _ _ _ _ _ H Herr).
  - intros profile encrypted error profile' H Herr.
    exact (decrypt_failure_inv _ _ _ _ H Herr).
Qed.

(** C6.  When the encryption key of the profile does not split on "|" into
    exactly two parts, [decryptProfilePassword] returns the invalid-format
    error with its fixed message, whatever the ciphertext, and the profile,
    password and encryption key included, is as before. *)
Theorem decrypt_rejects_malformed_key profile encrypted :
  List.length (algorithm.split (encryptionKey profile) "|") <> 2 ->
  decrypt profile encrypted
  = (unknownError "Profile password encryption key invalid format" Success,
     profile).
Proof.
  intros H. unfold decryptProfilePassword.
  destruct (Nat.eqb_spec
              (List.length (algorithm.split (encryptionKey profile) "|")) 2)
    as [E|E]; [contradiction | reflexivity].
Qed.

(** The same in terms of the number of delimiters: no delimiter (the empty
    string among them) or more than one. *)
Lemma decrypt_rejects_delimiter_count profile encrypted :
  algorithm.occurrences "|" (encryptionKey profile) <> 1 ->
  decrypt profile encrypted
  = (unknownError "Profile password encryption key invalid format" Success,
     profile).
Proof.
  intros H. unfold decryptProfilePassword.
  rewrite split_length.
  destruct (Nat.eqb_spec (S (algorithm.occurrences "|" (encryptionKey profile))) 2)
    as [E|E]; [lia | reflexivity].
Qed.

(** C10.  A successful [encryptProfilePassword] writes the password and the
    encryption key only: context (user name, project, id), executable path
    and the whole config are those of the profile before the call. *)
Theorem encrypt_frame profile encrypted0 w profile' encrypted w' :
  encrypt profile encrypted0 w = (Success, profile', encrypted, w') ->
  context profile' = context profile /\
  executablePath profile' = executablePath profile /\
  config profile' = config profile.
Proof.
  intros H.
  destruct (encrypt_success_inv _ _ _ _ _ _ H)
    as (key & w1 & iv & b64 & _ & _ & _ & ->).
  repeat split.
Qed.

(** ** The round trip, under the contracts of the collaborators *)

(** Decoding inverts encoding. *)
Hypothesis base64_inverse : forall data text,
  base64Encode data = (Success, text) ->
  base64Decode text = (Success, data).

(** Base64 text has no "|" in it. *)
Hypothesis base64_alphabet : forall data text,
  base64Encode data = (Success, text) ->
  algorithm.occurrences "|" text = 0.

(** Neither has the initialisation vector the cipher returns, which is
    base64 text as well. *)
Hypothesis iv_alphabet : forall input key iv0 encrypted0 w iv encrypted w',
  encryptDataAsBase64EncodedString input key iv0 encrypted0 w
  = (Success, iv, encrypted, w') ->
  algorithm.occurrences "|" iv = 0.

(** Decryption under the same key and initialisation vector inverts
    encryption. *)
Hypothesis cipher_inverse : forall input key iv0 encrypted0 w iv encrypted w',
  encryptDataAsBase64EncodedString input key iv0 encrypted0 w
  = (Success, iv, encrypted, w') ->
  decryptBase64EncodedString encrypted key iv = (Success, input).

(** C1.  For every profile, whatever its password (empty, or with the
    delimiter in it), if [encryptProfilePassword] succeeds and returns an
    encrypted password, then [decryptProfilePassword] on the resulting
    profile and that encrypted password succeeds, the password is the
    original one again and the encryption key is the empty string. *)
Theorem decrypt_inverts_encrypt profile encrypted0 w profile' encrypted w' :
  encrypt profile encrypted0 w = (Success, profile', encrypted, w') ->
  exists profile'',
    decrypt profile' encrypted = (Success, profile'') /\
    password profile'' = password profile /\
    encryptionKey profile'' = EmptyString.
Proof.
  intros H.
  destruct (encrypt_success_inv _ _ _ _ _ _ H)
    as (key & w1 & iv & b64 & Hr & He & Hb & ->).
  unfold decryptProfilePassword.
  cbn [encryptionKey set_encryptionKey].
  rewrite (split_join b64 iv
             (base64_alphabet _ _ Hb) (iv_alphabet _ _ _ _ _ _ _ _ He)).
  cbn [List.length Nat.eqb negb nth].
  rewrite (base64_inverse _ _ Hb). cbn [isError].
  rewrite (cipher_inverse _ _ _ _ _ _ _ _ He). cbn [isError].
  eexists. split; [reflexivity|]. split; reflexivity.
Qed.

End PasswordProtocolProperties.

(* ===================================================================== *)
(** * Properties: the reference collaborators meet the contracts *)
(* ===================================================================== *)

Module reference_facts.

Import reference.

(** Induction on a list, three elements at a time. *)
Lemma list_ind3 {A : Type} (P : list A -> Prop) :
  P [] ->
  (forall a, P [a]) ->
  (forall a b, P [a; b]) ->
  (forall a b c l, P l -> P (a :: b :: c :: l)) ->
  forall l, P l.
Proof.
  intros H0 H1 H2 H3.
  assert (G : forall l, P l /\ (forall a, P (a :: l))
                        /\ (forall a b, P (a :: b :: l))).
  { induction l as [|x l (IH0 & IH1 & IH2)].
    - auto.
    - repeat split; auto. }
  intros l. apply G.
Qed.

(** A check of the numbers below [k], one by one. *)
Lemma forall_below (P : N -> bool) (k : nat) :
  forallb P (map N.of_nat (seq 0 k)) = true ->
  forall n, (n < N.of_nat k)%N -> P n = true.
Proof.
  intros H n Hn.
  rewrite forallb_forall in H. apply H.
  apply in_map_iff. exists (N.to_nat n). split.
  - apply N2Nat.id.
  - apply in_seq. lia.
Qed.

Lemma char_sextet_sextet_char (n : N) :
  (n < 64)%N -> char_sextet (sextet_char n) = Some n.
Proof.
  intros Hn.
  pose proof (forall_below
                (fun n => match char_sextet (sextet_char n) with
                          | Some m => N.eqb m n
                          | None => false
                          end) 64 eq_refl n Hn) as G.
  cbv beta in G.
  destruct (char_sextet (sextet_char n)) as [m|]; [|discriminate].
  apply N.eqb_eq in G. congruence.
Qed.

Lemma sextet_char_not_pad (n : N) :
  (n < 64)%N -> Ascii.eqb (sextet_char n) pad = false.
Proof.
  intros Hn.
  apply (forall_below (fun n => negb (Ascii.eqb (sextet_char n) pad)) 64)
    in Hn; [|vm_compute; reflexivity].
  apply negb_true_iff in Hn. exact Hn.
Qed.

(** No character of the alphabet, and not the padding, is the delimiter. *)
Lemma sextet_char_not_bar (n : N) : Ascii.eqb (sextet_char n) "|" = false.
Proof.
  destruct (N.lt_ge_cases n 64) as [Hn|Hn].
  - apply (forall_below (fun n => negb (Ascii.eqb (sextet_char n) "|")) 64)
      in Hn; [|vm_compute; reflexivity].
    apply negb_true_iff in Hn. exact Hn.
  - unfold sextet_char.
    replace (String.get (N.to_nat n) alphabet) with (@None ascii);
      [reflexivity|].
    symmetry.
    assert (L : 64 <= N.to_nat n) by lia.
    revert L. generalize (N.to_nat n). intros k Hk.
    do 64 (destruct k as [|k]; [lia|]). reflexivity.
Qed.

Lemma byte_of_to_N (b : byte) : byte_of_N (Byte.to_N b) = b.
Proof. unfold byte_of_N. rewrite Byte.of_to_N. reflexivity. Qed.

Lemma to_N_byte_of_N (n : N) :
  (n < 256)%N -> Byte.to_N (byte_of_N n) = n.
Proof.
  intros Hn. unfold byte_of_N.
  destruct (Byte.of_N n) as [b|] eqn:E.
  - apply Byte.to_of_N. exact E.
  - apply Byte.of_N_None_iff in E. lia.
Qed.

Lemma to_N_lt (b : byte) : (Byte.to_N b < 256)%N.
Proof. pose proof (Byte.to_N_bounded b). lia. Qed.

(** The arithmetic of regrouping three octets into four sextets and back. *)
Lemma regroup (a b c : N) :
  (a < 256 -> b < 256 -> c < 256 ->
   let s1 := a / 4 in
   let s2 := (a mod 4) * 16 + b / 16 in
   let s3 := (b mod 16) * 4 + c / 64 in
   let s4 := c mod 64 in
   s1 < 64 /\ s2 < 64 /\ s3 < 64 /\ s4 < 64 /\
   s1 * 4 + s2 / 16 = a /\
   (s2 mod 16) * 16 + s3 / 4 = b /\
   (s3 mod 4) * 64 + s4 = c)%N.
Proof.
  intros Ha Hb Hc. cbv zeta.
  repeat split; zify; Z.to_euclidean_division_equations; lia.
Qed.

(** Decoding inverts encoding, on every sequence of octets. *)
Lemma base64_decode_encode (data : list byte) :
  base64_decode (base64_encode data) = Some data.
Proof.
  induction data as [|a|a b|a b c rest IH] using list_ind3.
  - reflexivity.
  - pose proof (regroup (Byte.to_N a) 0 0 (to_N_lt a) eq_refl eq_refl)
      as (L1 & L2 & _ & _ & E1 & _ & _).
    cbv zeta in *. cbn [N.div N.mul] in *. rewrite N.add_0_r in *.
    cbn [base64_encode base64_decode].
    rewrite !char_sextet_sextet_char by assumption.
    rewrite !Ascii.eqb_refl. rewrite E1, byte_of_to_N. reflexivity.
  - pose proof (regroup (Byte.to_N a) (Byte.to_N b) 0
                  (to_N_lt a) (to_N_lt b) eq_refl)
      as (L1 & L2 & L3 & _ & E1 & E2 & _).
    cbv zeta in *. cbn [N.div N.mul] in *. rewrite N.add_0_r in *.
    cbn [base64_encode base64_decode].
    rewrite !char_sextet_sextet_char by assumption.
    rewrite Ascii.eqb_refl.
    rewrite (sextet_char_not_pad _ L3).
    rewrite E1, E2, !byte_of_to_N. reflexivity.
  - pose proof (regroup (Byte.to_N a) (Byte.to_N b) (Byte.to_N c)
                  (to_N_lt a) (to_N_lt b) (to_N_lt c))
      as (L1 & L2 & L3 & L4 & E1 & E2 & E3).
    cbv zeta in *.
    cbn [base64_encode base64_decode].
    rewrite !char_sextet_sextet_char by assumption.
    rewrite (sextet_char_not_pad _ L4).
    rewrite IH. cbn [option_map].
    rewrite E1, E2, E3, !byte_of_to_N. reflexivity.
Qed.

(** The delimiter of the key does not occur in base64 text. *)
Lemma base64_encode_no_bar (data : list byte) :
  algorithm.occurrences "|" (base64_encode data) = 0.
Proof.
  induction data as [|a|a b|a b c rest IH] using list_ind3;
    cbn [base64_encode algorithm.occurrences];
    rewrite ?sextet_char_not_bar, ?IH; reflexivity.
Qed.

Lemma lxor_lt_256 (a b : N) :
  (a < 256 -> b < 256 -> N.lxor a b < 256)%N.
Proof.
  intros Ha Hb.
  destruct (N.eq_dec (N.lxor a b) 0) as [E|E]; [rewrite E; reflexivity|].
  change 256%N with (2 ^ 8)%N in *.
  apply N.log2_lt_pow2; [lia|].
  pose proof (N.log2_lxor a b) as L.
  assert (La : (N.log2 a < 8)%N).
  { destruct (N.eq_dec a 0) as [->|]; [reflexivity|].
    apply N.log2_lt_pow2; [lia | exact Ha]. }
  assert (Lb : (N.log2 b < 8)%N).
  { destruct (N.eq_dec b 0) as [->|]; [reflexivity|].
    apply N.log2_lt_pow2; [lia | exact Hb]. }
  lia.
Qed.

Lemma xor_byte_involutive (m a : byte) : xor_byte m (xor_byte m a) = a.
Proof.
  unfold xor_byte.
  rewrite to_N_byte_of_N by (apply lxor_lt_256; apply to_N_lt).
  rewrite <- N.lxor_assoc, N.lxor_nilpotent, N.lxor_0_l.
  apply byte_of_to_N.
Qed.

Lemma xor_stream_involutive (key iv data : list byte) :
  xor_stream key iv (xor_stream key iv data) = data.
Proof.
  unfold xor_stream. rewrite map_map.
  induction data as [|a data IH]; cbn [map]; [reflexivity|].
  rewrite xor_byte_involutive, IH. reflexivity.
Qed.

(** The four contracts the round trip of the protocol relies on. *)
Lemma base64_inverse (data : list byte) (text : string) :
  base64Encode data = (Success, text) ->
  base64Decode text = (Success, data).
Proof.
  unfold base64Encode, base64Decode. intros H. inversion H; subst.
  rewrite base64_decode_encode. reflexivity.
Qed.

Lemma base64_alphabet (data : list byte) (text : string) :
  base64Encode data = (Success, text) ->
  algorithm.occurrences "|" text = 0.
Proof.
  unfold base64Encode. intros H. inversion H; subst.
  apply base64_encode_no_bar.
Qed.

Lemma iv_alphabet input key iv0 encrypted0 w iv encrypted w' :
  encryptDataAsBase64EncodedString input key iv0 encrypted0 w
  = (Success, iv, encrypted, w') ->
  algorithm.occurrences "|" iv = 0.
Proof.
  unfold encryptDataAsBase64EncodedString.
  destruct (random 16 w) as [[e ivBin] w1].
  destruct (isError e) eqn:E; intros H; inversion H; subst.
  - discriminate.
  - apply base64_encode_no_bar.
Qed.

Lemma cipher_inverse input key iv0 encrypted0 w iv encrypted w' :
  encryptDataAsBase64EncodedString input key iv0 encrypted0 w
  = (Success, iv, encrypted, w') ->
  decryptBase64EncodedString encrypted key iv = (Success, input).
Proof.
  unfold encryptDataAsBase64EncodedString, decryptBase64EncodedString.
  destruct (random 16 w) as [[e ivBin] w1].
  destruct (isError e) eqn:E; intros H; inversion H; subst.
  - discriminate.
  - rewrite !base64_decode_encode.
    rewrite xor_stream_involutive, string_of_list_byte_of_string.
    reflexivity.
Qed.

End reference_facts.

(* ===================================================================== *)
(** * The protocol on the sample profile *)
(* ===================================================================== *)

Lemma sample_encrypt :
  reference.encrypt sample_profile "" reference.pool
  = (Success, sample_encrypted_profile, sample_encrypted_password, []).
Proof. vm_compute. reflexivity. Defined.

Lemma decrypt_inverts_encrypt_witness :
  reference.encrypt sample_profile "" reference.pool
  = (Success, sample_encrypted_profile, sample_encrypted_password, []) /\
  exists profile'',
    reference.decrypt sample_encrypted_profile sample_encrypted_password
    = (Success, profile'') /\
    password profile'' = password sample_profile /\
    encryptionKey profile'' = EmptyString.
Proof.
  split; [exact sample_encrypt|].
  exact (decrypt_inverts_encrypt
           reference.World reference.random
           reference.encryptDataAsBase64EncodedString
           reference.base64Encode reference.base64Decode
           reference.decryptBase64EncodedString
           reference_facts.base64_inverse
           reference_facts.base64_alphabet
           reference_facts.iv_alphabet
           reference_facts.cipher_inverse
           sample_profile "" reference.pool
           sample_encrypted_profile sample_encrypted_password []
           sample_encrypt).
Defined.

Lemma encrypt_clears_password_sets_key_witness :
  reference.encrypt sample_profile "" reference.pool
  = (Success, sample_encrypted_profile, sample_encrypted_password, []) /\
  password sample_encrypted_profile = EmptyString /\
  encryptionKey sample_encrypted_profile <> EmptyString.
Proof.
  split; [exact sample_encrypt|].
  destruct (encrypt_clears_password_sets_key
              reference.World reference.random
              reference.encryptDataAsBase64EncodedString
              reference.base64Encode
              sample_profile "" reference.pool
              sample_encrypted_profile sample_encrypted_password []
              sample_encrypt) as (Hp & Hk & _).
  split; assumption.
Defined.

Lemma error_leaves_profile_unchanged_witness :
  (reference.encrypt sample_profile "" []
   = (systemError 5, sample_profile, EmptyString, []) /\
   systemError 5 <> Success /\
   sample_profile = sample_profile) /\
  (reference.decrypt sample_profile "AAAA"
   = (unknownError "Profile password encryption key invalid format" Success,
      sample_profile) /\
   unknownError "Profile password encryption key invalid format" Success
   <> Success /\
   sample_profile = sample_profile).
Proof.
  destruct (error_leaves_profile_unchanged
              reference.World reference.random
              reference.encryptDataAsBase64EncodedString
              reference.base64Encode reference.base64Decode
              reference.decryptBase64EncodedString) as [He Hd].
  assert (E1 : reference.encrypt sample_profile "" []
               = (systemError 5, sample_profile, EmptyString, []))
    by (vm_compute; reflexivity).
  assert (E2 : reference.decrypt sample_profile "AAAA"
               = (unknownError
                    "Profile password encryption key invalid format" Success,
                  sample_profile))
    by (vm_compute; reflexivity).
  split; (split; [assumption|]); (split; [discriminate|]).
  - exact (He _ _ _ _ _ _ _ E1 ltac:(discriminate)).
  - exact (Hd _ _ _ _ E2 ltac:(discriminate)).
Defined.

Lemma decrypt_rejects_malformed_key_witness :
  List.length (algorithm.split (encryptionKey malformed_profile) "|") <> 2 /\
  reference.decrypt malformed_profile sample_encrypted_password
  = (unknownError "Profile password encryption key invalid format" Success,
     malformed_profile).
Proof.
  assert (H : List.length
                (algorithm.split (encryptionKey malformed_profile) "|") <> 2)
    by (vm_compute; discriminate).
  split; [exact H|].
  exact (decrypt_rejects_malformed_key
           reference.base64Decode reference.decryptBase64EncodedString
           malformed_profile sample_encrypted_password H).
Defined.

Lemma encrypt_frame_witness :
  reference.encrypt sample_profile "" reference.pool
  = (Success, sample_encrypted_profile, sample_encrypted_password, []) /\
  context sample_encrypted_profile = context sample_profile /\
  executablePath sample_encrypted_profile = executablePath sample_profile /\
  config sample_encrypted_profile = config sample_profile.
Proof.
  split; [exact sample_encrypt|].
  exact (encrypt_frame
           reference.World reference.random
           reference.encryptDataAsBase64EncodedString
           reference.base64Encode
           sample_profile "" reference.pool
           sample_encrypted_profile sample_encrypted_password []
           sample_encrypt).
Defined.

(** The three malformed keys of the design document. *)
Example decrypt_rejects_examples :
  forall encrypted,
    map (fun key =>
           fst (reference.decrypt
                  (set_encryptionKey sample_profile key) encrypted))
        [""; "abc"; "a|b|c"]
    = repeat
        (unknownError "Profile password encryption key invalid format"
           Success) 3.
Proof. intros encrypted. reflexivity. Qed.

(* ===================================================================== *)
(** * Properties: numbers on their way through the codec *)
(* ===================================================================== *)

Local Open Scope Z_scope.

Lemma int_of_int (z : Z) : is_int z -> json.int z = z.
Proof.
  unfold is_int, json.int. intros H.
  rewrite Z.mod_small; lia.
Qed.

Lemma uint64_t_of_uint64 (z : Z) : is_uint64 z -> uint64_t z = z.
Proof. unfold is_uint64, uint64_t. intros H. apply Z.mod_small. exact H. Qed.


(** The number of binary digits of a mantissa is its size. *)
Lemma digits2_pos_size (p : positive) : digits2_pos p = Pos.size p.
Proof. induction p; simpl; congruence. Qed.

Lemma digits2_pos_bound (p : positive) :
  Z.pos p < 2 ^ 53 -> Z.pos (digits2_pos p) <= 53.
Proof.
  intros H. rewrite digits2_pos_size.
  pose proof (Pos.size_le p) as L.
  apply Pos2Z.pos_le_pos in L. rewrite Pos2Z.inj_pow in L.
  destruct (Z.le_gt_cases (Z.pos (Pos.size p)) 53) as [G|G];
    [exact G|exfalso].
  assert (M : 2 ^ 54 <= 2 ^ Z.pos (Pos.size p))
    by (apply Z.pow_le_mono_r; lia).
  change (2 ^ 54) with 18014398509481984 in M.
  change (2 ^ 53) with 9007199254740992 in H.
  lia.
Qed.

(** Shifting a mantissa to the left by [k] digits. *)
Lemma iter_xO_digits (p k : positive) :
  digits2_pos (Pos.iter xO p k) = (digits2_pos p + k)%positive.
Proof.
  induction k as [|k IH] using Pos.peano_ind.
  - simpl. lia.
  - rewrite Pos.iter_succ. simpl. rewrite IH. lia.
Qed.

Lemma iter_xO_value (p k : positive) :
  Z.pos (Pos.iter xO p k) = Z.pos p * 2 ^ Z.pos k.
Proof.
  induction k as [|k IH] using Pos.peano_ind.
  - simpl. lia.
  - rewrite Pos.iter_succ, Pos2Z.inj_xO, IH, Pos2Z.inj_succ, Z.pow_succ_r
      by lia.
    lia.
Qed.

(** A mantissa of exactly 53 digits with an exponent in range is a binary64
    number as it stands: rounding has nothing to do. *)
Lemma binary_round_aux_exact (m : positive) (e : Z) :
  Z.pos (digits2_pos m) = 53 ->
  -1074 <= e <= 971 ->
  binary_round_aux json.prec json.emax false (Z.pos m) e loc_Exact
  = S754_finite false m e.
Proof.
  intros Hd He.
  assert (F : shr_fexp json.prec json.emax (Z.pos m) e loc_Exact
              = ({| shr_m := Z.pos m; shr_r := false; shr_s := false |}, e)).
  { unfold shr_fexp, fexp, emin, json.prec, json.emax.
    cbn [Zdigits2 shr_record_of_loc]. rewrite Hd.
    replace (Z.max (53 + e - 53) (3 - 1024 - 53) - e) with 0 by lia.
    reflexivity. }
  unfold binary_round_aux. rewrite F.
  cbn [shr_m loc_of_shr_record round_nearest_even].
  rewrite F. cbn [shr_m].
  unfold json.prec, json.emax.
  destruct (Z.leb_spec e (1024 - 53)); [reflexivity | lia].
Qed.

(** Below 2^53 the conversion to [double] only normalises the mantissa. *)
Lemma double_of_integer_small (n : Z) :
  0 < n < 2 ^ 53 ->
  exists m e,
    json.double_of_integer n = S754_finite false m e /\
    e <= 0 /\
    Z.pos m = n * 2 ^ (- e).
Proof.
  intros [Hp Hn]. destruct n as [|p|p]; try lia.
  unfold json.double_of_integer, binary_normalize, binary_round.
  pose proof (digits2_pos_bound p Hn) as Hd.
  unfold shl_align, fexp, emin, json.prec, json.emax.
  replace (Z.max (Z.pos (digits2_pos p) + 0 - 53) (3 - 1024 - 53) - 0)
    with (Z.pos (digits2_pos p) - 53) by lia.
  destruct (Z.pos (digits2_pos p) - 53) as [|k|k] eqn:E; try lia.
  - replace (Z.max (Z.pos (digits2_pos p) + 0 - 53) (3 - 1024 - 53))
      with 0 by lia.
    exists p, 0. split; [|split; [lia|simpl; lia]].
    apply (binary_round_aux_exact p 0); lia.
  - replace (Z.max (Z.pos (digits2_pos p) + 0 - 53) (3 - 1024 - 53))
      with (Z.neg k) by lia.
    exists (Pos.iter xO p k), (Z.neg k). split; [|split; [lia|]].
    + apply (binary_round_aux_exact (Pos.iter xO p k) (Z.neg k)).
      * rewrite iter_xO_digits. lia.
      * lia.
    + rewrite iter_xO_value. reflexivity.
Qed.

(** Every integer from 0 to 2^53 is held exactly by a [double]. *)
Lemma exact_in_double_upto_2_53 (n : Z) :
  0 <= n <= 2 ^ 53 -> exact_in_double n.
Proof.
  intros [H0 H1]. unfold exact_in_double.
  destruct (Z.eq_dec n 0) as [->|N0]; [reflexivity|].
  destruct (Z.eq_dec n (2 ^ 53)) as [->|N1]; [vm_compute; reflexivity|].
  destruct (double_of_integer_small n) as (m & e & -> & He & Hm); [lia|].
  cbn [truncate]. f_equal. rewrite Hm.
  rewrite <- Z.shiftr_opp_r, Z.shiftr_div_pow2 by lia.
  apply Z.div_mul. apply Z.pow_nonzero; lia.
Qed.

(** 2^53 + 1 is not: the nearest [double] is 2^53. *)
Lemma not_exact_in_double_2_53_plus_1 :
  truncate (json.double_of_integer (2 ^ 53 + 1)) = Some (2 ^ 53).
Proof. vm_compute. reflexivity. Qed.

Lemma RLimitType_of_double_exact out_of_range (n : Z) :
  is_uint64 n ->
  exact_in_double n ->
  RLimitType_of_double out_of_range (json.double_of_integer n) = n.
Proof.
  unfold is_uint64, exact_in_double, RLimitType_of_double.
  intros Hn ->.
  destruct (Z.leb_spec 0 n); [|lia].
  destruct (Z.ltb_spec n (2 ^ 64)); [reflexivity|lia].
Qed.

Lemma cpuAffinityFromJson_loop_bools (v acc : CpuAffinity) :
  cpuAffinityFromJson_loop (json.toJsonArray v) acc
  = (Success, (acc ++ v)%list).
Proof.
  revert acc. induction v as [|b v IH]; intros acc.
  - cbn. rewrite app_nil_r. reflexivity.
  - cbn [json.toJsonArray map cpuAffinityFromJson_loop json.asBool].
    fold (json.toJsonArray v).
    rewrite IH, <- app_assoc. reflexivity.
Qed.

Lemma cpuAffinityFromJson_bools (v affinity : CpuAffinity) :
  cpuAffinityFromJson (json.toJsonArray v) affinity = (Success, v).
Proof. unfold cpuAffinityFromJson. apply cpuAffinityFromJson_loop_bools. Qed.

(* ===================================================================== *)
(** * Properties: the launch-profile codec *)
(* ===================================================================== *)




(** Nor is a negative value, which a signed limit type would hold: -1 is
    encoded as 2^64 - 1. *)
Example toJson_minus_one :
  toJson (-1) = json.VInteger 18446744073709551615.
Proof. reflexivity. Qed.

(** The conversion to [boost::uint64_t] raises nothing: the handler of the
    [try] block is not entered, and an integer outside the unsigned 64-bit
    range wraps around. *)
Lemma toJson_wraps (z : Z) : toJson z = json.VInteger (z mod 2 ^ 64).
Proof. reflexivity. Qed.

Section CodecProperties.

Variable Array_of_StringPairList : StringPairList -> json.Array.
Variable Array_toStringPairList : json.Array -> StringPairList.
Variable Object_of_StringPairList : StringPairList -> json.Object.
Variable Object_toStringPairList : json.Object -> StringPairList.
Variable indeterminate : Indeterminate.
Variable out_of_range : json.double -> RLimitType.

Local Abbreviation encode :=
  (sessionLaunchProfileToJson
     Array_of_StringPairList Object_of_StringPairList).
Local Abbreviation decode :=
  (sessionLaunchProfileFromJson
     Array_toStringPairList Object_toStringPairList
     indeterminate out_of_range).
Local Abbreviation limit_of_double := (RLimitType_of_double out_of_range).

(** What decoding an encoded profile yields, field by field: strings and
    affinity as they were, the two pair lists through the conversions of the
    json library, the two [int]s through the read of an [int], each limit
    through [boost::uint64_t], [double] and back; nothing is logged. *)
Lemma decode_encode (profile : SessionLaunchProfile) :
  decode (encode profile)
  = (let cfg := config profile in
     let l := limits cfg in
     {| context := context profile;
        password := password profile;
        encryptionKey := encryptionKey profile;
        executablePath := executablePath profile;
        config :=
          {| args :=
               Array_toStringPairList (Array_of_StringPairList (args cfg));
             environment :=
               Object_toStringPairList
                 (Object_of_StringPairList (environment cfg));
             stdInput := stdInput cfg;
             stdStreamBehavior := json.int (stdStreamBehavior cfg);
             limits :=
               {| priority := json.int (priority l);
                  memoryLimitBytes :=
                    limit_of_double
                      (json.double_of_integer
                         (uint64_t (memoryLimitBytes l)));
                  stackLimitBytes :=
                    limit_of_double
                      (json.double_of_integer
                         (uint64_t (stackLimitBytes l)));
                  userProcessesLimit :=
                    limit_of_double
                      (json.double_of_integer
                         (uint64_t (userProcessesLimit l)));
                  cpuLimit :=
                    limit_of_double
                      (json.double_of_integer (uint64_t (cpuLimit l)));
                  niceLimit :=
                    limit_of_double
                      (json.double_of_integer (uint64_t (niceLimit l)));
                  filesLimit :=
                    limit_of_double
                      (json.double_of_integer (uint64_t (filesLimit l)));
                  cpuAffinity := cpuAffinity l |} |} |},
     []).
Proof.
  destruct profile as [[u [pr i]] pw ek ex [ar en si sb [p m s up c n f ca]]].
  cbv -[json.double_of_integer RLimitType_of_double json.int
        json.toJsonArray cpuAffinityFromJson uint64_t
        Z.modulo Z.pow Z.add Z.sub].
  rewrite cpuAffinityFromJson_bools. reflexivity.
Qed.

(** Whatever the json library's conversions, the content of the
    uninitialised locals and the platform, the memory limit of 2^53 + 1
    bytes is decoded as 2^53. *)
Lemma large_limit_rounded :
  memoryLimitBytes
    (limits (config (fst (decode (encode large_limit_profile)))))
  = 2 ^ 53.
Proof. rewrite decode_encode. reflexivity. Qed.

(** C4, amended.  For every valid profile (its numbers values of their C++
    types, its argument list and environment pair lists that the json
    library's conversions reproduce) with a non-empty password and with six
    limits that a [double] holds exactly, decoding the encoded profile
    gives back the profile: user name, project, id, executable path,
    arguments, environment, standard input, stream behaviour, the six
    limits, priority and every affinity boolean (the password and the key
    as well), and logs nothing. *)
Theorem decode_encode_exact (profile : SessionLaunchProfile) :
  well_typed profile ->
  password profile <> EmptyString ->
  Array_toStringPairList (Array_of_StringPairList (args (config profile)))
  = args (config profile) ->
  Object_toStringPairList
    (Object_of_StringPairList (environment (config profile)))
  = environment (config profile) ->
  limits_exact_in_double profile ->
  decode (encode profile) = (profile, []).
Proof.
  intros (Tb & Tp & Tm & Ts & Tu & Tc & Tn & Tf) _ Ha He
         (Em & Es & Eu & Ec & En & Ef).
  rewrite decode_encode. cbv zeta.
  rewrite Ha, He.
  rewrite !int_of_int by assumption.
  rewrite !uint64_t_of_uint64 by assumption.
  rewrite !RLimitType_of_double_exact by assumption.
  destruct profile as [ctx pw ek ex [ar en si sb [p m s up c n f ca]]].
  reflexivity.
Qed.

(** C5, as the code has it.  On the empty object nothing can be read, a
    profile is returned all the same, and each of its six limits is the
    conversion of what the uninitialised [double] local of that limit
    happened to hold, which need not be zero. *)
Theorem decode_empty_object_limits :
  let l := limits (config (fst (decode []))) in
  memoryLimitBytes l = limit_of_double (ind_memoryLimitBytes indeterminate) /\
  stackLimitBytes l = limit_of_double (ind_stackLimitBytes indeterminate) /\
  userProcessesLimit l
  = limit_of_double (ind_userProcessesLimit indeterminate) /\
  cpuLimit l = limit_of_double (ind_cpuLimit indeterminate) /\
  niceLimit l = limit_of_double (ind_niceLimit indeterminate) /\
  filesLimit l = limit_of_double (ind_filesLimit indeterminate).
Proof. repeat split. Qed.

End CodecProperties.

(** The whole result on the empty object, with locals that hold 1.0: the
    default profile except for the six limits, and the four errors logged
    (top-level read, context read, config read, affinity read). *)
Example decode_empty_object_ones :
  reference_json.decode ones []
  = (set_config default_profile
       {| args := [];
          environment := [];
          stdInput := EmptyString;
          stdStreamBehavior := 0;
          limits :=
            {| priority := 0;
               memoryLimitBytes := 1;
               stackLimitBytes := 1;
               userProcessesLimit := 1;
               cpuLimit := 1;
               niceLimit := 1;
               filesLimit := 1;
               cpuAffinity := [] |} |},
     [ jsonError ParamMissing; jsonError ParamMissing;
       jsonError ParamMissing; jsonError ParamMissing ]).
Proof. vm_compute. reflexivity. Qed.

(** C4, as stated, fails: a valid profile with a non-empty password and a
    memory limit of 2^53 + 1 bytes, whose arguments and environment the
    conversions reproduce, comes back with a memory limit of 2^53. *)
Lemma decode_encode_large_limit :
  well_typed large_limit_profile /\
  password large_limit_profile <> EmptyString /\
  reference_json.Array_toStringPairList
    (reference_json.Array_of_StringPairList
       (args (config large_limit_profile)))
  = args (config large_limit_profile) /\
  reference_json.Object_toStringPairList
    (reference_json.Object_of_StringPairList
       (environment (config large_limit_profile)))
  = environment (config large_limit_profile) /\
  memoryLimitBytes
    (limits
       (config
          (fst (reference_json.decode ones
                  (reference_json.encode large_limit_profile)))))
  = 2 ^ 53 /\
  memoryLimitBytes
    (limits
       (config
          (fst (reference_json.decode ones
                  (reference_json.encode large_limit_profile)))))
  <> memoryLimitBytes (limits (config large_limit_profile)).
Proof.
  split; [|split; [|split; [|split; [|split]]]].
  - unfold well_typed, is_int, is_uint64. cbn. lia.
  - discriminate.
  - reflexivity.
  - reflexivity.
  - vm_compute. reflexivity.
  - vm_compute. discriminate.
Qed.

Lemma decode_encode_exact_witness :
  well_typed sample_profile /\
  password sample_profile <> EmptyString /\
  limits_exact_in_double sample_profile /\
  reference_json.decode ones (reference_json.encode sample_profile)
  = (sample_profile, []).
Proof.
  assert (T : well_typed sample_profile)
    by (unfold well_typed, is_int, is_uint64; cbn; lia).
  assert (P : password sample_profile <> EmptyString) by discriminate.
  assert (E : limits_exact_in_double sample_profile)
    by (repeat split; vm_compute; reflexivity).
  split; [exact T|]. split; [exact P|]. split; [exact E|].
  exact (decode_encode_exact
           reference_json.Array_of_StringPairList
           reference_json.Array_toStringPairList
           reference_json.Object_of_StringPairList
           reference_json.Object_toStringPairList
           ones (fun _ => 0)
           sample_profile T P eq_refl eq_refl E).
Defined.

(** The end-to-end scenario: encrypt, encode, decode, decrypt with the
    ciphertext that travelled separately; the profile is the original one
    in every field. *)
Example end_to_end :
  reference.decrypt
    (fst (reference_json.decode ones
            (reference_json.encode sample_encrypted_profile)))
    sample_encrypted_password
  = (Success, sample_profile).
Proof. vm_compute. reflexivity. Qed.

(* ===================================================================== *)
(** * Properties: the main-process tracker *)
(* ===================================================================== *)

Module main_process_facts.

Import main_process.

Local Open Scope nat_scope.

Lemma run_app platform (events more : list Event) (s : State) :
  run platform (events ++ more) s = run platform more (run platform events s).
Proof.
  revert s. induction events as [|ev events IH]; intros s; cbn [app run].
  - reflexivity.
  - apply IH.
Qed.

Lemma iter_prepareFork (n : nat) (self : thread_id) (s : State) :
  Nat.iter n (prepareFork self) s = s.
Proof.
  induction n as [|n IH]; [reflexivity|].
  rewrite Nat.iter_succ, IH. unfold prepareFork. destruct (negb _); reflexivity.
Qed.

Lemma iter_atForkParent (n : nat) (self : thread_id) (s : State) :
  Nat.iter n (atForkParent self) s = s.
Proof.
  induction n as [|n IH]; [reflexivity|].
  rewrite Nat.iter_succ, IH. unfold atForkParent. destruct (negb _); reflexivity.
Qed.

(** Running the child handler [n] times sets the flag if [n] is positive
    and touches nothing else. *)
Lemma iter_atForkChild (n : nat) (s : State) :
  Nat.iter n atForkChild s
  = {| s_mainThreadId := s_mainThreadId s;
       s_wasForked := s_wasForked s || (0 <? n);
       t_isMainThread := t_isMainThread s;
       atfork := atfork s;
       log := log s |}.
Proof.
  induction n as [|n IH].
  - cbn. rewrite orb_false_r. destruct s; reflexivity.
  - rewrite Nat.iter_succ, IH. unfold atForkChild. cbn.
    rewrite orb_true_r. reflexivity.
Qed.

(** The flag after one event: only a fork in the child with handlers
    registered sets it, and nothing clears it. *)
Lemma step_wasForked platform (ev : Event) (s : State) :
  s_wasForked (step platform ev s)
  = s_wasForked s
    || match ev with
       | fork_child _ => 0 <? atfork s
       | _ => false
       end.
Proof.
  destruct ev as [rc errno|self|self| |self|self]; cbn [step].
  - unfold setupForkHandlers. destruct platform; [destruct (negb _)|];
      cbn; rewrite orb_false_r; reflexivity.
  - cbn. rewrite orb_false_r. reflexivity.
  - unfold isMainThread. destruct (negb _); cbn; rewrite orb_false_r;
      reflexivity.
  - rewrite orb_false_r. reflexivity.
  - rewrite iter_prepareFork, iter_atForkParent, orb_false_r. reflexivity.
  - rewrite iter_prepareFork, iter_atForkChild. reflexivity.
Qed.

Lemma run_wasForked platform (events : list Event) (s : State) :
  s_wasForked (run platform events s)
  = s_wasForked s || (0 <? child_hook_runs platform events s).
Proof.
  revert s. induction events as [|ev events IH]; intros s;
    cbn [run child_hook_runs].
  - rewrite orb_false_r. reflexivity.
  - rewrite IH, step_wasForked, <- orb_assoc. f_equal.
    destruct ev; cbn [Nat.add]; try reflexivity.
    destruct (atfork s) as [|k]; reflexivity.
Qed.

(** Without [_WIN32]'s counterpart of the handlers, nothing is ever
    registered. *)
Lemma step_atfork_Win32 (ev : Event) (s : State) :
  atfork (step Win32 ev s) = atfork s.
Proof.
  destruct ev as [rc errno|self|self| |self|self]; cbn [step].
  - reflexivity.
  - reflexivity.
  - unfold isMainThread. destruct (negb _); reflexivity.
  - reflexivity.
  - rewrite iter_prepareFork, iter_atForkParent. reflexivity.
  - rewrite iter_prepareFork, iter_atForkChild. reflexivity.
Qed.

Lemma child_hook_runs_Win32 (events : list Event) (s : State) :
  atfork s = 0 -> child_hook_runs Win32 events s = 0.
Proof.
  revert s. induction events as [|ev events IH]; intros s H;
    cbn [child_hook_runs]; [reflexivity|].
  rewrite IH by (rewrite step_atfork_Win32; exact H).
  destruct ev; try reflexivity. rewrite H. reflexivity.
Qed.

(** C8.  In every state the process reaches from its start, [wasForked()]
    is false as long as the fork-child handler has not run and true once
    it has run; whatever happens afterwards it does not go back from true
    to false; and on the non-Unix target, where no handler is installed, it
    is false in every reachable state. *)
Theorem wasForked_tracks_fork_child platform (events more : list Event) :
  wasForked (run platform events initial)
  = (0 <? child_hook_runs platform events initial) /\
  implb (wasForked (run platform events initial))
        (wasForked (run platform (events ++ more) initial)) = true /\
  wasForked (run Win32 events initial) = false.
Proof.
  unfold wasForked. repeat split.
  - rewrite run_wasForked. reflexivity.
  - rewrite run_app, (run_wasForked platform more).
    destruct (s_wasForked (run platform events initial)); reflexivity.
  - rewrite run_wasForked, child_hook_runs_Win32; reflexivity.
Qed.

(** The same facts, one at a time. *)
Corollary wasForked_false_before_fork_child platform (events : list Event) :
  child_hook_runs platform events initial = 0 ->
  wasForked (run platform events initial) = false.
Proof.
  intros H. unfold wasForked. rewrite run_wasForked, H. reflexivity.
Qed.

Corollary wasForked_true_after_fork_child platform (events : list Event) :
  0 < child_hook_runs platform events initial ->
  wasForked (run platform events initial) = true.
Proof.
  intros H. unfold wasForked. rewrite run_wasForked.
  apply Nat.ltb_lt in H. rewrite H. reflexivity.
Qed.

Corollary wasForked_stays_true platform (events : list Event) (s : State) :
  wasForked s = true -> wasForked (run platform events s) = true.
Proof.
  unfold wasForked. intros H. rewrite run_wasForked, H. reflexivity.
Qed.

(** The pointer of a thread after one event: only [initThreadId] on that
    thread sets it, and nothing resets it. *)
Lemma step_has_flag platform (ev : Event) (s : State) (self : thread_id) :
  has_flag (step platform ev s) self
  = has_flag s self
    || match ev with
       | call_initThreadId main => Nat.eqb self main
       | _ => false
       end.
Proof.
  unfold has_flag.
  destruct ev as [rc errno|main|t| |t|t]; cbn [step].
  - unfold setupForkHandlers. destruct platform; [destruct (negb _)|];
      cbn; rewrite orb_false_r; reflexivity.
  - cbn. destruct (Nat.eqb self main).
    + rewrite orb_true_r. reflexivity.
    + rewrite orb_false_r. reflexivity.
  - unfold isMainThread. destruct (negb _); cbn; rewrite orb_false_r;
      reflexivity.
  - rewrite orb_false_r. reflexivity.
  - rewrite iter_prepareFork, iter_atForkParent, orb_false_r. reflexivity.
  - rewrite iter_prepareFork, iter_atForkChild, orb_false_r. reflexivity.
Qed.

Lemma run_has_flag platform (events : list Event) (s : State)
    (self : thread_id) :
  has_flag (run platform events s) self
  = has_flag s self || existsb (Nat.eqb self) (init_calls events).
Proof.
  revert s. induction events as [|ev events IH]; intros s;
    cbn [run init_calls].
  - cbn. rewrite orb_false_r. reflexivity.
  - rewrite IH, step_has_flag, <- orb_assoc. f_equal.
    destruct ev; reflexivity.
Qed.

Lemma last_cons {A : Type} (l : list A) (x d : A) :
  last (x :: l) d = last l x.
Proof.
  revert x d. induction l as [|y l IH]; intros x d; [reflexivity|].
  change (last (x :: y :: l) d) with (last (y :: l) d).
  rewrite (IH y d), (IH y x). reflexivity.
Qed.

(** The recorded id is that of the last caller of [initThreadId]. *)
Lemma run_mainThreadId platform (events : list Event) (s : State) :
  s_mainThreadId (run platform events s)
  = last (map Some (init_calls events)) (s_mainThreadId s).
Proof.
  revert s. induction events as [|ev events IH]; intros s;
    cbn [run init_calls]; [reflexivity|].
  rewrite IH.
  destruct ev as [rc errno|main|t| |t|t]; cbn [step].
  - unfold setupForkHandlers. destruct platform; [destruct (negb _)|];
      reflexivity.
  - cbn [map initThreadId s_mainThreadId].
    rewrite last_cons. reflexivity.
  - unfold isMainThread. destruct (negb _); reflexivity.
  - reflexivity.
  - rewrite iter_prepareFork, iter_atForkParent. reflexivity.
  - rewrite iter_prepareFork, iter_atForkChild. reflexivity.
Qed.

(** C9.  When [initThreadId()] has been called exactly once, by thread
    [main], then whatever else has happened, [isMainThread()] returns true
    on thread [main] and false on every other thread (and its internal
    check agrees, so that nothing is logged). *)
Theorem isMainThread_after_initThreadId
    platform (events : list Event) (main self : thread_id) :
  init_calls events = [main] ->
  let s := run platform events initial in
  isMainThread self s = (Nat.eqb self main, s).
Proof.
  intros H s.
  pose proof (run_has_flag platform events initial self) as F.
  pose proof (run_mainThreadId platform events initial) as M.
  rewrite H in F, M. cbn in F, M. fold s in F, M.
  unfold has_flag in F. rewrite orb_false_r in F.
  unfold isMainThread, sysIsMainThread, is_main_id.
  rewrite M.
  destruct (t_isMainThread s self); rewrite <- F; cbn; reflexivity.
Qed.

Lemma isMainThread_after_initThreadId_witness :
  init_calls sample_events = [7] /\
  isMainThread 7 (run Unix sample_events initial)
  = (true, run Unix sample_events initial) /\
  isMainThread 3 (run Unix sample_events initial)
  = (false, run Unix sample_events initial).
Proof.
  split; [reflexivity|]. split.
  - exact (isMainThread_after_initThreadId Unix sample_events 7 7 eq_refl).
  - exact (isMainThread_after_initThreadId Unix sample_events 7 3 eq_refl).
Defined.

(** A run on Unix: the flag is set by the fork in the child and stays. *)
Example wasForked_run :
  map (fun events => wasForked (run Unix events initial))
      [ [];
        [call_setupForkHandlers 0 0; call_initThreadId 7; fork_parent 7];
        [call_setupForkHandlers 0 0; call_initThreadId 7; fork_child 7];
        [call_setupForkHandlers 0 0; call_initThreadId 7; fork_child 7;
         call_initThreadId 7; fork_parent 7; call_wasForked];
        [call_setupForkHandlers 11 12; fork_child 7] ]
  = [false; false; true; true; false].
Proof. reflexivity. Qed.

End main_process_facts.

(* ===================================================================== *)
(** * Further properties: the affinity and context decoders *)
(* ===================================================================== *)

Lemma toJsonArray_injective (v v' : CpuAffinity) :
  json.toJsonArray v = json.toJsonArray v' -> v = v'.
Proof.
  revert v'. induction v as [|b v IH]; intros [|b' v'] H; try discriminate.
  - reflexivity.
  - cbn in H. inversion H. f_equal. apply IH. assumption.
Qed.

Lemma cpuAffinityFromJson_loop_success
    (affinityJson : json.Array) (acc v : CpuAffinity) :
  cpuAffinityFromJson_loop affinityJson acc = (Success, v) ->
  exists tail, v = (acc ++ tail)%list /\ affinityJson = json.toJsonArray tail.
Proof.
  revert acc. induction affinityJson as [|val rest IH]; intros acc H.
  - cbn in H. inversion H. exists []. rewrite app_nil_r. split; reflexivity.
  - cbn [cpuAffinityFromJson_loop] in H.
    destruct val; cbn [json.asBool] in H; try discriminate.
    destruct (IH _ H) as (tail & -> & ->).
    exists (b :: tail). rewrite <- app_assoc. split; reflexivity.
Qed.

(** X1.  [cpuAffinityFromJson] succeeds exactly on the arrays all of whose
    elements are booleans, and then yields those booleans in order,
    whatever the affinity held before. *)
Theorem cpuAffinityFromJson_success_iff
    (affinityJson : json.Array) (affinity v : CpuAffinity) :
  cpuAffinityFromJson affinityJson affinity = (Success, v)
  <-> affinityJson = json.toJsonArray v.
Proof.
  split.
  - unfold cpuAffinityFromJson. intros H.
    destruct (cpuAffinityFromJson_loop_success _ _ _ H) as (tail & -> & ->).
    reflexivity.
  - intros ->. apply cpuAffinityFromJson_bools.
Qed.

Lemma cpuAffinityFromJson_loop_mismatch (front : CpuAffinity)
    (bad : json.Value) (rest : json.Array) (acc : CpuAffinity) :
  json.asBool bad = None ->
  cpuAffinityFromJson_loop (json.toJsonArray front ++ bad :: rest) acc
  = (jsonError ParamTypeMismatch, (acc ++ front)%list).
Proof.
  intros Hbad. revert acc. induction front as [|b front IH]; intros acc.
  - cbn. rewrite Hbad, app_nil_r. reflexivity.
  - cbn [json.toJsonArray map app cpuAffinityFromJson_loop json.asBool].
    fold (json.toJsonArray front). rewrite IH, <- app_assoc. reflexivity.
Qed.

(** X2.  On an array with an element that is not a boolean,
    [cpuAffinityFromJson] returns [ParamTypeMismatch] and leaves in the
    affinity the booleans that precede the first such element: what the
    affinity held before is gone, what follows the element is not looked
    at. *)
Theorem cpuAffinityFromJson_mismatch (front : CpuAffinity)
    (bad : json.Value) (rest : json.Array) (affinity : CpuAffinity) :
  json.asBool bad = None ->
  cpuAffinityFromJson (json.toJsonArray front ++ bad :: rest) affinity
  = (jsonError ParamTypeMismatch, front).
Proof.
  intros Hbad. unfold cpuAffinityFromJson.
  rewrite cpuAffinityFromJson_loop_mismatch by exact Hbad. reflexivity.
Qed.

Lemma cpuAffinityFromJson_mismatch_witness :
  json.asBool (json.VInteger 1) = None /\
  cpuAffinityFromJson mixed_affinity [false; false]
  = (jsonError ParamTypeMismatch, [true]).
Proof.
  split; [reflexivity|].
  exact (cpuAffinityFromJson_mismatch
           [true] (json.VInteger 1) [json.VBool false] [false; false]
           eq_refl).
Defined.

(** One field of a structured read that a hypothesis is about: the member is
    there or not, and of one kind of value or another. *)
Ltac read_field H :=
  match type of H with
  | context [json.find ?o ?n] =>
      let v := fresh "v" in
      let E := fresh "E" in
      destruct (json.find o n) as [v|] eqn:E;
      [destruct v; cbn in H | cbn in H]
  end.

(** X3.  [contextFromJson] succeeds exactly when the object has the three
    members "username", "project" and "id" and all three are strings; the
    context is then made of these three strings, whatever it held
    before. *)
Theorem contextFromJson_success_iff
    (contextJson : json.Object) (context context' : SessionContext) :
  contextFromJson contextJson context = (Success, context')
  <-> exists u p i,
        json.find contextJson "username" = Some (json.VString u) /\
        json.find contextJson "project" = Some (json.VString p) /\
        json.find contextJson "id" = Some (json.VString i) /\
        context' = {| username := u; scope := fromProjectId p i |}.
Proof.
  split.
  - unfold contextFromJson. cbn. intros H.
    repeat (read_field H; try discriminate).
    inversion H; subst. eauto 8.
  - intros (u & p & i & Hu & Hp & Hi & ->).
    unfold contextFromJson. cbn. rewrite Hu. cbn. rewrite Hp. cbn.
    rewrite Hi. cbn. reflexivity.
Qed.

(** X4.  When [contextFromJson] returns an error, the scope of the context
    is the one it had before the call; the user name need not be. *)
Theorem contextFromJson_error_keeps_scope
    (contextJson : json.Object) (context context' : SessionContext)
    (error : Error) :
  contextFromJson contextJson context = (error, context') ->
  error <> Success ->
  scope context' = scope context.
Proof.
  unfold contextFromJson. cbn. intros H Herr.
  repeat (read_field H; try (inversion H; subst; reflexivity)).
  inversion H; subst. congruence.
Qed.

Lemma contextFromJson_error_keeps_scope_witness :
  contextFromJson username_only (context sample_profile)
  = (jsonError ParamMissing,
     {| username := "bob"; scope := scope (context sample_profile) |}) /\
  jsonError ParamMissing <> Success /\
  scope {| username := "bob"; scope := scope (context sample_profile) |}
  = scope (context sample_profile).
Proof.
  assert (E : contextFromJson username_only (context sample_profile)
              = (jsonError ParamMissing,
                 {| username := "bob";
                    scope := scope (context sample_profile) |}))
    by reflexivity.
  assert (N : jsonError ParamMissing <> Success) by discriminate.
  split; [exact E|]. split; [exact N|].
  exact (contextFromJson_error_keeps_scope _ _ _ _ E N).
Defined.

(* ===================================================================== *)
(** * Further properties: decoding any object *)
(* ===================================================================== *)

Lemma LOG_ERROR_nil (error : Error) (log : list Error) :
  LOG_ERROR error log = [] -> error = Success /\ log = [].
Proof.
  unfold LOG_ERROR. destruct error; cbn; intros H;
    try (destruct log; discriminate).
  split; [reflexivity | exact H].
Qed.

(** After the read of the top-level fields the config object is the
    "config" member of the input, or still empty. *)
Lemma read_top_level_config
    (jsonProfile : json.Object) error contextJson profile configJson :
  read_top_level jsonProfile = (error, (contextJson, profile, configJson)) ->
  configJson = [] \/
  json.find jsonProfile "config" = Some (json.VObject configJson).
Proof.
  unfold read_top_level. cbn. intros H.
  repeat (read_field H; try (inversion H; subst; auto; fail)).
Qed.

Lemma read_cpuAffinity_array (configJson : json.Object) error affinityJson :
  read_cpuAffinity configJson = (error, affinityJson) ->
  affinityJson = [] \/
  json.find configJson "cpuAffinity" = Some (json.VArray affinityJson).
Proof.
  unfold read_cpuAffinity. cbn. intros H.
  repeat (read_field H; try (inversion H; subst; auto; fail)).
Qed.

(** A read of the config object that succeeds has assigned every local: the
    result is the same from any other content of the locals. *)
Lemma read_config_success_overwrites
    (configJson : json.Object) (l0 l0' l : locals.t) :
  read_config configJson l0 = (Success, l) ->
  read_config configJson l0' = (Success, l).
Proof.
  unfold read_config. destruct l0, l0'. cbn. intros H.
  repeat (read_field H; try discriminate); cbn; exact H.
Qed.

(* ===================================================================== *)
(** * Further properties: limits next to 2^64 *)
(* ===================================================================== *)

(** The 1024 integers below 2^64, one by one: each is nearer to 2^64 than
    to the [double] before it, or half-way and rounded to the even
    mantissa. *)
Lemma double_of_integer_near_2_64 (v : Z) :
  2 ^ 64 - 1024 <= v < 2 ^ 64 ->
  json.double_of_integer v = two_to_64.
Proof.
  intros H.
  pose proof (reference_facts.forall_below
                (fun n =>
                   match json.double_of_integer
                           (2 ^ 64 - 1024 + Z.of_N n) with
                   | S754_finite false m e =>
                       Pos.eqb m (2 ^ 52) && Z.eqb e 12
                   | _ => false
                   end) 1024 eq_refl (Z.to_N (v - (2 ^ 64 - 1024)))) as G.
  cbv beta in G.
  replace (2 ^ 64 - 1024 + Z.of_N (Z.to_N (v - (2 ^ 64 - 1024))))
    with v in G by lia.
  assert (L : (Z.to_N (v - (2 ^ 64 - 1024)) < N.of_nat 1024)%N) by lia.
  specialize (G L).
  destruct (json.double_of_integer v) as [| | |[] m e]; try discriminate.
  apply andb_true_iff in G. destruct G as [Gm Ge].
  apply Pos.eqb_eq in Gm. apply Z.eqb_eq in Ge. subst. reflexivity.
Qed.

Section DecodeProperties.

Variable Array_of_StringPairList : StringPairList -> json.Array.
Variable Array_toStringPairList : json.Array -> StringPairList.
Variable Object_of_StringPairList : StringPairList -> json.Object.
Variable Object_toStringPairList : json.Object -> StringPairList.
Variable out_of_range : json.double -> RLimitType.

Local Abbreviation encode :=
  (sessionLaunchProfileToJson
     Array_of_StringPairList Object_of_StringPairList).
Local Abbreviation decode_with indeterminate :=
  (sessionLaunchProfileFromJson
     Array_toStringPairList Object_toStringPairList
     indeterminate out_of_range).
Local Abbreviation limit_of_double := (RLimitType_of_double out_of_range).

(** [sessionLaunchProfileFromJson] as the sequence of its reads. *)
Lemma decode_stages (indeterminate : Indeterminate)
    (jsonProfile : json.Object) :
  decode_with indeterminate jsonProfile
  = (let '(error1, (contextJson, profile, configJson)) :=
       read_top_level jsonProfile in
     let '(error2, context) :=
       contextFromJson contextJson (context profile) in
     let '(error3, l) :=
       read_config configJson (initial_locals indeterminate) in
     let '(error4, cpuAffinityJson) := read_cpuAffinity configJson in
     let '(error5, affinity) := cpuAffinityFromJson cpuAffinityJson [] in
     (set_config (set_context profile context)
        {| args := Array_toStringPairList (locals.argsJson l);
           environment := Object_toStringPairList (locals.envJson l);
           stdInput := locals.stdInput l;
           stdStreamBehavior := locals.stdStreamBehavior l;
           limits :=
             {| priority := locals.priority l;
                memoryLimitBytes :=
                  limit_of_double (locals.memoryLimitBytes l);
                stackLimitBytes :=
                  limit_of_double (locals.stackLimitBytes l);
                userProcessesLimit :=
                  limit_of_double (locals.userProcessesLimit l);
                cpuLimit := limit_of_double (locals.cpuLimit l);
                niceLimit := limit_of_double (locals.niceLimit l);
                filesLimit := limit_of_double (locals.filesLimit l);
                cpuAffinity := if isError error5 then [] else affinity |} |},
      LOG_ERROR error5
        (LOG_ERROR error4
           (LOG_ERROR error3 (LOG_ERROR error2 (LOG_ERROR error1 [])))))).
Proof. reflexivity. Qed.

(** X5.  The affinity of a decoded profile is all or nothing: when it is
    not empty, the input has a "config" object whose "cpuAffinity" member
    is the array of exactly these booleans.  An array with an element of
    another kind never leaves a part of itself in the profile. *)
Theorem decode_affinity_all_or_nothing (indeterminate : Indeterminate)
    (jsonProfile : json.Object) (v : CpuAffinity) :
  cpuAffinity
    (limits (config (fst (decode_with indeterminate jsonProfile)))) = v ->
  v <> [] ->
  exists configJson,
    json.find jsonProfile "config" = Some (json.VObject configJson) /\
    json.find configJson "cpuAffinity"
    = Some (json.VArray (json.toJsonArray v)).
Proof.
  rewrite decode_stages.
  destruct (read_top_level jsonProfile) as [e1 [[cj p] cfg]] eqn:E1.
  destruct (contextFromJson cj (context p)) as [e2 ctx].
  destruct (read_config cfg (initial_locals indeterminate)) as [e3 l].
  destruct (read_cpuAffinity cfg) as [e4 a] eqn:E4.
  destruct (cpuAffinityFromJson a []) as [e5 aff] eqn:E5.
  cbn [fst config set_config limits cpuAffinity].
  intros Hv Hne.
  destruct (isError e5) eqn:I5; [congruence|].
  apply isError_false in I5. subst e5 aff.
  unfold cpuAffinityFromJson in E5.
  destruct (cpuAffinityFromJson_loop_success _ _ _ E5) as (tail & Ht & ->).
  cbn [app] in Ht. subst tail.
  destruct (read_cpuAffinity_array _ _ _ E4) as [Ha|Ha].
  - destruct v; [congruence | discriminate].
  - destruct (read_top_level_config _ _ _ _ _ E1) as [Hc|Hc].
    + subst cfg. discriminate.
    + exists cfg. split; assumption.
Qed.

(** X6.  When decoding logs no error, every local has been assigned from
    the input: the profile returned does not depend on what the
    uninitialised locals held. *)
Theorem decode_clean_log_initialised (indeterminate indeterminate' : Indeterminate)
    (jsonProfile : json.Object) :
  snd (decode_with indeterminate jsonProfile) = [] ->
  decode_with indeterminate' jsonProfile
  = decode_with indeterminate jsonProfile.
Proof.
  rewrite !decode_stages.
  destruct (read_top_level jsonProfile) as [e1 [[cj p] cfg]].
  destruct (contextFromJson cj (context p)) as [e2 ctx].
  destruct (read_config cfg (initial_locals indeterminate)) as [e3 l] eqn:E3.
  destruct (read_cpuAffinity cfg) as [e4 a].
  destruct (cpuAffinityFromJson a []) as [e5 aff].
  cbn [snd]. intros H.
  apply LOG_ERROR_nil in H. destruct H as [_ H].
  apply LOG_ERROR_nil in H. destruct H as [_ H].
  apply LOG_ERROR_nil in H. destruct H as [-> _].
  rewrite (read_config_success_overwrites _ _ (initial_locals indeterminate') _ E3).
  reflexivity.
Qed.

(** X7.  Decoding the encoding of a well-typed profile whose pair lists the
    conversions reproduce gives back every field but the six limits, logs
    nothing and does not depend on the uninitialised locals; each limit
    comes back as its conversion to [double] and back, exact or not. *)
Theorem decode_encode_up_to_limits (indeterminate : Indeterminate)
    (profile : SessionLaunchProfile) :
  well_typed profile ->
  Array_toStringPairList (Array_of_StringPairList (args (config profile)))
  = args (config profile) ->
  Object_toStringPairList
    (Object_of_StringPairList (environment (config profile)))
  = environment (config profile) ->
  decode_with indeterminate (encode profile)
  = (let cfg := config profile in
     let l := limits cfg in
     set_config profile
       {| args := args cfg;
          environment := environment cfg;
          stdInput := stdInput cfg;
          stdStreamBehavior := stdStreamBehavior cfg;
          limits :=
            {| priority := priority l;
               memoryLimitBytes :=
                 limit_of_double
                   (json.double_of_integer (memoryLimitBytes l));
               stackLimitBytes :=
                 limit_of_double (json.double_of_integer (stackLimitBytes l));
               userProcessesLimit :=
                 limit_of_double
                   (json.double_of_integer (userProcessesLimit l));
               cpuLimit :=
                 limit_of_double (json.double_of_integer (cpuLimit l));
               niceLimit :=
                 limit_of_double (json.double_of_integer (niceLimit l));
               filesLimit :=
                 limit_of_double (json.double_of_integer (filesLimit l));
               cpuAffinity := cpuAffinity l |} |},
     []).
Proof.
  intros (Tb & Tp & Tm & Ts & Tu & Tc & Tn & Tf) Ha He.
  rewrite decode_encode. cbv zeta.
  rewrite Ha, He.
  rewrite !int_of_int by assumption.
  rewrite !uint64_t_of_uint64 by assumption.
  reflexivity.
Qed.

(** X8.  Encoding loses nothing: two well-typed profiles whose pair lists
    the conversions reproduce and which have the same encoding are the
    same profile, limits above 2^53 included. *)
Theorem encode_injective (p q : SessionLaunchProfile) :
  well_typed p ->
  well_typed q ->
  Array_toStringPairList (Array_of_StringPairList (args (config p)))
  = args (config p) ->
  Array_toStringPairList (Array_of_StringPairList (args (config q)))
  = args (config q) ->
  Object_toStringPairList
    (Object_of_StringPairList (environment (config p)))
  = environment (config p) ->
  Object_toStringPairList
    (Object_of_StringPairList (environment (config q)))
  = environment (config q) ->
  encode p = encode q ->
  p = q.
Proof.
  intros (_ & _ & Tm & Ts & Tu & Tc & Tn & Tf)
         (_ & _ & Tm' & Ts' & Tu' & Tc' & Tn' & Tf') Ha Ha' He He' H.
  destruct p as [[u [pr i]] pw ek ex [ar en si sb [p m s up c n f ca]]].
  destruct q
    as [[u' [pr' i']] pw' ek' ex' [ar' en' si' sb' [p' m' s' up' c' n' f' ca']]].
  cbn [config limits args environment memoryLimitBytes stackLimitBytes
       userProcessesLimit cpuLimit niceLimit filesLimit] in *.
  cbv -[uint64_t json.toJsonArray Z.modulo Z.pow] in H.
  inversion H as
    [[Hu Hpr Hi Hpw Hek Hex Har Hen Hsi Hsb Hp Hm Hs Hup Hc Hn Hf Hca]].
  rewrite !uint64_t_of_uint64 in * by assumption.
  apply toJsonArray_injective in Hca.
  rewrite Har in Ha. rewrite Ha' in Ha.
  rewrite Hen in He. rewrite He' in He.
  congruence.
Qed.

(** X9.  A limit within 1024 of 2^64, the all-ones "unlimited" value among
    them, does not survive the codec: it is encoded as itself, read back as
    the [double] 2^64, and converted to [RLimitType] outside the range in
    which the language defines the conversion, so that the decoded limit is
    whatever the platform yields there.  This holds for each of the six
    limits. *)
Theorem decode_encode_limit_near_2_64 (indeterminate : Indeterminate)
    (profile : SessionLaunchProfile)
    (limit : ProcessLimits -> RLimitType) :
  In limit limit_fields ->
  2 ^ 64 - 1024 <= limit (limits (config profile)) < 2 ^ 64 ->
  limit
    (limits (config (fst (decode_with indeterminate (encode profile)))))
  = out_of_range two_to_64.
Proof.
  intros Hin H.
  assert (U : is_uint64 (limit (limits (config profile))))
    by (unfold is_uint64; lia).
  rewrite decode_encode.
  cbn [limit_fields In] in Hin.
  repeat (destruct Hin as [<-|Hin];
          [cbn [fst config limits memoryLimitBytes stackLimitBytes
                userProcessesLimit cpuLimit niceLimit filesLimit] in *;
           rewrite (uint64_t_of_uint64 _ U),
                   (double_of_integer_near_2_64 _ H);
           reflexivity|]).
  contradiction.
Qed.

End DecodeProperties.

Lemma decode_encode_up_to_limits_witness :
  well_typed large_limit_profile /\
  fst (reference_json.decode ones
         (reference_json.encode large_limit_profile))
  = set_config large_limit_profile
      {| args := args (config large_limit_profile);
         environment := environment (config large_limit_profile);
         stdInput := EmptyString;
         stdStreamBehavior := 1;
         limits :=
           {| priority := 5;
              memoryLimitBytes := 2 ^ 53;
              stackLimitBytes := 0;
              userProcessesLimit := 0;
              cpuLimit := 0;
              niceLimit := 0;
              filesLimit := 1024;
              cpuAffinity := [true; false; true] |} |}.
Proof.
  assert (T : well_typed large_limit_profile)
    by (unfold well_typed, is_int, is_uint64; cbn; lia).
  split; [exact T|].
  exact (f_equal fst
           (decode_encode_up_to_limits
              reference_json.Array_of_StringPairList
              reference_json.Array_toStringPairList
              reference_json.Object_of_StringPairList
              reference_json.Object_toStringPairList
              (fun _ => 0) ones large_limit_profile T eq_refl eq_refl)).
Defined.

Lemma encode_injective_witness :
  well_typed sample_profile /\
  reference_json.encode sample_profile
  = reference_json.encode sample_profile /\
  sample_profile = sample_profile.
Proof.
  assert (T : well_typed sample_profile)
    by (unfold well_typed, is_int, is_uint64; cbn; lia).
  split; [exact T|]. split; [reflexivity|].
  exact (encode_injective
           reference_json.Array_of_StringPairList
           reference_json.Array_toStringPairList
           reference_json.Object_of_StringPairList
           reference_json.Object_toStringPairList
           sample_profile sample_profile T T
           eq_refl eq_refl eq_refl eq_refl eq_refl).
Defined.

Lemma decode_affinity_all_or_nothing_witness :
  cpuAffinity
    (limits
       (config
          (fst (reference_json.decode ones
                  (reference_json.encode sample_profile)))))
  = [true; false; true] /\
  [true; false; true] <> [] /\
  exists configJson,
    json.find (reference_json.encode sample_profile) "config"
    = Some (json.VObject configJson) /\
    json.find configJson "cpuAffinity"
    = Some (json.VArray (json.toJsonArray [true; false; true])).
Proof.
  assert (E : cpuAffinity
                (limits
                   (config
                      (fst (reference_json.decode ones
                              (reference_json.encode sample_profile)))))
              = [true; false; true])
    by (vm_compute; reflexivity).
  assert (N : [true; false; true] <> @nil bool) by discriminate.
  split; [exact E|]. split; [exact N|].
  exact (decode_affinity_all_or_nothing
           reference_json.Array_toStringPairList
           reference_json.Object_toStringPairList
           (fun _ => 0) ones
           (reference_json.encode sample_profile) [true; false; true] E N).
Defined.

Lemma decode_clean_log_initialised_witness :
  snd (reference_json.decode ones (reference_json.encode sample_profile))
  = [] /\
  reference_json.decode nans (reference_json.encode sample_profile)
  = reference_json.decode ones (reference_json.encode sample_profile).
Proof.
  assert (L : snd (reference_json.decode ones
                     (reference_json.encode sample_profile)) = [])
    by (vm_compute; reflexivity).
  split; [exact L|].
  exact (decode_clean_log_initialised
           reference_json.Array_toStringPairList
           reference_json.Object_toStringPairList
           (fun _ => 0) ones nans
           (reference_json.encode sample_profile) L).
Defined.

Lemma decode_encode_limit_near_2_64_witness :
  In memoryLimitBytes limit_fields /\
  2 ^ 64 - 1024
  <= memoryLimitBytes (limits (config unlimited_profile)) < 2 ^ 64 /\
  memoryLimitBytes
    (limits
       (config
          (fst (sessionLaunchProfileFromJson
                  reference_json.Array_toStringPairList
                  reference_json.Object_toStringPairList
                  ones (fun _ => 42)
                  (reference_json.encode unlimited_profile)))))
  = 42.
Proof.
  assert (I : In memoryLimitBytes limit_fields) by (left; reflexivity).
  assert (H : 2 ^ 64 - 1024
              <= memoryLimitBytes (limits (config unlimited_profile))
              < 2 ^ 64) by (cbn; lia).
  split; [exact I|]. split; [exact H|].
  exact (decode_encode_limit_near_2_64
           reference_json.Array_of_StringPairList
           reference_json.Array_toStringPairList
           reference_json.Object_of_StringPairList
           reference_json.Object_toStringPairList
           (fun _ => 42) ones unlimited_profile memoryLimitBytes I H).
Defined.

(* ===================================================================== *)
(** * Further properties: the password protocol and the codec together *)
(* ===================================================================== *)

Section ProtocolAndCodec.

Variable World : Type.
Variable random : nat -> World -> Error * list byte * World.
Variable encryptDataAsBase64EncodedString :
  string -> string -> string -> string -> World ->
  Error * string * string * World.
Variable base64Encode : list byte -> Error * string.
Variable base64Decode : string -> Error * list byte.
Variable decryptBase64EncodedString :
  string -> string -> string -> Error * string.
Variable Array_of_StringPairList : StringPairList -> json.Array.
Variable Array_toStringPairList : json.Array -> StringPairList.
Variable Object_of_StringPairList : StringPairList -> json.Object.
Variable Object_toStringPairList : json.Object -> StringPairList.
Variable indeterminate : Indeterminate.
Variable out_of_range : json.double -> RLimitType.

Local Abbreviation encrypt :=
  (encryptProfilePassword
     random encryptDataAsBase64EncodedString base64Encode).
Local Abbreviation decrypt :=
  (decryptProfilePassword base64Decode decryptBase64EncodedString).
Local Abbreviation encode :=
  (sessionLaunchProfileToJson
     Array_of_StringPairList Object_of_StringPairList).
Local Abbreviation decode :=
  (sessionLaunchProfileFromJson
     Array_toStringPairList Object_toStringPairList
     indeterminate out_of_range).

(** X10.  Whatever [decryptProfilePassword] returns, it has written nothing
    but the password and the encryption key: context, executable path and
    config are those of the profile before the call. *)
Theorem decrypt_frame (profile : SessionLaunchProfile) (encrypted : string) :
  let profile' := snd (decrypt profile encrypted) in
  context profile' = context profile /\
  executablePath profile' = executablePath profile /\
  config profile' = config profile.
Proof.
  unfold decryptProfilePassword.
  destruct (negb _); [repeat split|].
  destruct (base64Decode _) as [e1 keyBin].
  destruct (isError e1); [repeat split|].
  destruct (decryptBase64EncodedString _ _ _) as [e2 decrypted].
  destruct (isError e2); repeat split.
Qed.

(** X11.  The two functions raise no error of their own but one: each
    error they return is the error, as it is, of the very call that failed.
    For [encryptProfilePassword] that is the call of the random source, or
    after it the call of the cipher on the password under the key drawn, or
    after both the call of the base64 encoder on that key.  For
    [decryptProfilePassword] it is the invalid-format error when the key
    does not split in two, or the call of the base64 decoder on the first
    part, or after it the call of the cipher on the encrypted password
    under the decoded key and the second part. *)
Theorem errors_come_from_collaborators :
  (forall profile encrypted0 w error profile' encrypted w',
     encrypt profile encrypted0 w = (error, profile', encrypted, w') ->
     error <> Success ->
     (exists key, random 32%nat w = (error, key, w') /\
                  encrypted = encrypted0) \/
     (exists key w1 iv,
        random 32%nat w = (Success, key, w1) /\
        encryptDataAsBase64EncodedString
          (password profile) (string_of_list_byte key)
          EmptyString encrypted0 w1
        = (error, iv, encrypted, w')) \/
     (exists key w1 iv text,
        random 32%nat w = (Success, key, w1) /\
        encryptDataAsBase64EncodedString
          (password profile) (string_of_list_byte key)
          EmptyString encrypted0 w1
        = (Success, iv, encrypted, w') /\
        base64Encode key = (error, text))) /\
  (forall profile encrypted error profile',
     decrypt profile encrypted = (error, profile') ->
     error <> Success ->
     let parts := algorithm.split (encryptionKey profile) "|" in
     (List.length parts <> 2%nat /\
      error
      = unknownError "Profile password encryption key invalid format"
          Success) \/
     (List.length parts = 2%nat /\
      exists keyBin,
        base64Decode (nth 0 parts EmptyString) = (error, keyBin)) \/
     (List.length parts = 2%nat /\
      exists keyBin decrypted,
        base64Decode (nth 0 parts EmptyString) = (Success, keyBin) /\
        decryptBase64EncodedString
          encrypted (string_of_list_byte keyBin)
          (nth 1 parts EmptyString)
        = (error, decrypted))).
Proof.
  split.
  - intros profile encrypted0 w error profile' encrypted w'.
    unfold encryptProfilePassword.
    destruct (random 32%nat w) as [[e1 key] w1] eqn:R.
    destruct (isError e1) eqn:I1.
    { intros H _. inversion H; subst. left. eauto. }
    apply isError_false in I1. subst e1.
    destruct (encryptDataAsBase64EncodedString _ _ _ _ _)
      as [[[e2 iv] enc] w2] eqn:C.
    destruct (isError e2) eqn:I2.
    { intros H _. inversion H; subst. right. left. eauto 6. }
    apply isError_false in I2. subst e2.
    destruct (base64Encode key) as [e3 text] eqn:B.
    destruct (isError e3) eqn:I3.
    { intros H _. inversion H; subst. right. right. eauto 8. }
    intros H Herr. inversion H; subst. congruence.
  - intros profile encrypted error profile'.
    unfold decryptProfilePassword. cbv zeta.
    destruct (Nat.eqb_spec
                (List.length
                   (algorithm.split (encryptionKey profile) "|")) 2)
      as [L|L]; cbn [negb].
    2:{ intros H _. inversion H; subst. left. split; [exact L|reflexivity]. }
    destruct (base64Decode _) as [e1 keyBin] eqn:B.
    destruct (isError e1) eqn:I1.
    { intros H _. inversion H; subst. right. left. eauto. }
    apply isError_false in I1. subst e1.
    destruct (decryptBase64EncodedString _ _ _) as [e2 decrypted] eqn:D.
    destruct (isError e2) eqn:I2.
    { intros H _. inversion H; subst. right. right. eauto 6. }
    intros H Herr. inversion H; subst. congruence.
Qed.

(** X12.  The encoding of a profile after a successful encryption is the
    encoding of the profile before it with two members replaced: "password"
    by the empty string and "encryptionKey" by the key, which is not empty.
    Every other member is encoded as it would have been without the
    encryption, a password that the caller put into the arguments or the
    environment included. *)
Theorem encrypted_profile_encoding
    profile encrypted0 w profile' encrypted w' :
  encrypt profile encrypted0 w = (Success, profile', encrypted, w') ->
  encode profile'
  = json.set
      (json.set (encode profile) "password" (json.VString EmptyString))
      "encryptionKey" (json.VString (encryptionKey profile')) /\
  json.find (encode profile') "password" = Some (json.VString EmptyString) /\
  json.find (encode profile') "encryptionKey"
  = Some (json.VString (encryptionKey profile')) /\
  encryptionKey profile' <> EmptyString.
Proof.
  intros H.
  destruct (encrypt_success_inv _ _ _ _ _ _ _ _ _ _ H)
    as (key & w1 & iv & b64 & _ & _ & _ & ->).
  repeat split. cbn [encryptionKey set_encryptionKey].
  apply join_two_not_empty.
Qed.

(** ** Under the contracts of the collaborators *)

Hypothesis base64_inverse : forall data text,
  base64Encode data = (Success, text) ->
  base64Decode text = (Success, data).

Hypothesis base64_alphabet : forall data text,
  base64Encode data = (Success, text) ->
  algorithm.occurrences "|" text = 0%nat.

Hypothesis iv_alphabet : forall input key iv0 encrypted0 w iv encrypted w',
  encryptDataAsBase64EncodedString input key iv0 encrypted0 w
  = (Success, iv, encrypted, w') ->
  algorithm.occurrences "|" iv = 0%nat.

Hypothesis cipher_inverse : forall input key iv0 encrypted0 w iv encrypted w',
  encryptDataAsBase64EncodedString input key iv0 encrypted0 w
  = (Success, iv, encrypted, w') ->
  decryptBase64EncodedString encrypted key iv = (Success, input).

(** Decryption of what an encryption produced, as a whole profile. *)
Lemma decrypt_after_encrypt profile encrypted0 w profile' encrypted w' :
  encrypt profile encrypted0 w = (Success, profile', encrypted, w') ->
  decrypt profile' encrypted
  = (Success, set_encryptionKey profile EmptyString).
Proof.
  intros H.
  destruct (encrypt_success_inv _ _ _ _ _ _ _ _ _ _ H)
    as (key & w1 & iv & b64 & Hr & He & Hb & ->).
  unfold decryptProfilePassword.
  cbn [encryptionKey set_encryptionKey].
  rewrite (split_join b64 iv
             (base64_alphabet _ _ Hb) (iv_alphabet _ _ _ _ _ _ _ _ He)).
  cbn [List.length Nat.eqb negb nth].
  rewrite (base64_inverse _ _ Hb). cbn [isError].
  rewrite (cipher_inverse _ _ _ _ _ _ _ _ He). cbn [isError].
  reflexivity.
Qed.

(** X13.  End to end: a well-typed profile, whose pair lists the
    conversions reproduce and whose limits a [double] holds exactly, is
    encrypted, encoded, decoded and decrypted with the encrypted password
    that travelled apart.  Nothing is logged and the result is the
    original profile, with the empty encryption key. *)
Theorem end_to_end_round_trip profile encrypted0 w profile' encrypted w' :
  well_typed profile ->
  Array_toStringPairList (Array_of_StringPairList (args (config profile)))
  = args (config profile) ->
  Object_toStringPairList
    (Object_of_StringPairList (environment (config profile)))
  = environment (config profile) ->
  limits_exact_in_double profile ->
  encrypt profile encrypted0 w = (Success, profile', encrypted, w') ->
  snd (decode (encode profile')) = [] /\
  decrypt (fst (decode (encode profile'))) encrypted
  = (Success, set_encryptionKey profile EmptyString).
Proof.
  intros (Tb & Tp & Tm & Ts & Tu & Tc & Tn & Tf) Ha He
         (Em & Es & Eu & Ec & En & Ef) H.
  pose proof (decrypt_after_encrypt _ _ _ _ _ _ H) as D.
  destruct (encrypt_success_inv _ _ _ _ _ _ _ _ _ _ H)
    as (key & w1 & iv & b64 & _ & _ & _ & E).
  assert (R : decode (encode profile') = (profile', [])).
  { rewrite decode_encode. cbv zeta. subst profile'.
    cbn [config set_encryptionKey set_password context password
         encryptionKey executablePath].
    rewrite Ha, He.
    rewrite !int_of_int by assumption.
    rewrite !uint64_t_of_uint64 by assumption.
    rewrite !RLimitType_of_double_exact by assumption.
    destruct profile as [ctx pw ek ex [ar en si sb [p m s up c n f ca]]].
    reflexivity. }
  rewrite R. split; [reflexivity | exact D].
Qed.

(** X14.  Encrypting an encrypted profile again encrypts the empty
    password: after two successful encryptions, decryption with the second
    encrypted password succeeds and yields the empty password, not the
    original one. *)
Theorem second_encryption_encrypts_empty_password
    profile encrypted0 w profile1 encrypted1 w1
    encrypted0' w1' profile2 encrypted2 w2 :
  encrypt profile encrypted0 w = (Success, profile1, encrypted1, w1) ->
  encrypt profile1 encrypted0' w1' = (Success, profile2, encrypted2, w2) ->
  exists profile3,
    decrypt profile2 encrypted2 = (Success, profile3) /\
    password profile3 = EmptyString.
Proof.
  intros H1 H2.
  rewrite (decrypt_after_encrypt _ _ _ _ _ _ H2).
  eexists. split; [reflexivity|].
  destruct (encrypt_success_inv _ _ _ _ _ _ _ _ _ _ H1)
    as (key & w' & iv & b64 & _ & _ & _ & ->).
  reflexivity.
Qed.

End ProtocolAndCodec.

Lemma errors_come_from_collaborators_witness :
  (reference.encrypt sample_profile "" []
   = (systemError 5, sample_profile, EmptyString, []) /\
   systemError 5 <> Success /\
   exists key, reference.random 32%nat [] = (systemError 5, key, [])) /\
  (reference.decrypt sample_encrypted_profile "...."
   = (systemError 22, sample_encrypted_profile) /\
   systemError 22 <> Success /\
   exists keyBin decrypted,
     reference.base64Decode
       (nth 0 (algorithm.split
                 (encryptionKey sample_encrypted_profile) "|") EmptyString)
     = (Success, keyBin) /\
     reference.decryptBase64EncodedString
       "...." (string_of_list_byte keyBin)
       (nth 1 (algorithm.split
                 (encryptionKey sample_encrypted_profile) "|") EmptyString)
     = (systemError 22, decrypted)).
Proof.
  destruct (errors_come_from_collaborators
              reference.World reference.random
              reference.encryptDataAsBase64EncodedString
              reference.base64Encode reference.base64Decode
              reference.decryptBase64EncodedString) as [He Hd].
  assert (E1 : reference.encrypt sample_profile "" []
               = (systemError 5, sample_profile, EmptyString, []))
    by (vm_compute; reflexivity).
  assert (N1 : systemError 5 <> Success) by discriminate.
  assert (E2 : reference.decrypt sample_encrypted_profile "...."
               = (systemError 22, sample_encrypted_profile))
    by (vm_compute; reflexivity).
  assert (N2 : systemError 22 <> Success) by discriminate.
  split; (split; [assumption|]); (split; [assumption|]).
  - destruct (He _ _ _ _ _ _ _ E1 N1) as [G|[G|G]].
    + destruct G as (key & R & _). exists key. exact R.
    + destruct G as (key & w1 & iv & R & _). discriminate R.
    + destruct G as (key & w1 & iv & text & R & _). discriminate R.
  - destruct (Hd _ _ _ _ E2 N2) as [G|[G|G]].
    + destruct G as [L _]. exfalso. apply L. vm_compute. reflexivity.
    + destruct G as (_ & keyBin & B). exfalso. revert B.
      vm_compute. discriminate.
    + destruct G as (_ & G). exact G.
Defined.

Lemma encrypted_profile_encoding_witness :
  reference.encrypt sample_profile "" reference.pool
  = (Success, sample_encrypted_profile, sample_encrypted_password, []) /\
  reference_json.encode sample_encrypted_profile
  = json.set
      (json.set (reference_json.encode sample_profile)
         "password" (json.VString EmptyString))
      "encryptionKey"
      (json.VString (encryptionKey sample_encrypted_profile)).
Proof.
  split; [exact sample_encrypt|].
  exact (proj1 (encrypted_profile_encoding
                  reference.World reference.random
                  reference.encryptDataAsBase64EncodedString
                  reference.base64Encode
                  reference_json.Array_of_StringPairList
                  reference_json.Object_of_StringPairList
                  sample_profile "" reference.pool
                  sample_encrypted_profile sample_encrypted_password []
                  sample_encrypt)).
Defined.

Lemma sample_profile_valid :
  well_typed sample_profile /\ limits_exact_in_double sample_profile.
Proof.
  split.
  - unfold well_typed, is_int, is_uint64; cbn; lia.
  - repeat split; vm_compute; reflexivity.
Defined.

Lemma end_to_end_round_trip_witness :
  well_typed sample_profile /\
  limits_exact_in_double sample_profile /\
  reference.encrypt sample_profile "" reference.pool
  = (Success, sample_encrypted_profile, sample_encrypted_password, []) /\
  reference.decrypt
    (fst (reference_json.decode nans
            (reference_json.encode sample_encrypted_profile)))
    sample_encrypted_password
  = (Success, set_encryptionKey sample_profile EmptyString).
Proof.
  destruct sample_profile_valid as [T E].
  split; [exact T|]. split; [exact E|]. split; [exact sample_encrypt|].
  exact (proj2 (end_to_end_round_trip
                  reference.World reference.random
                  reference.encryptDataAsBase64EncodedString
                  reference.base64Encode reference.base64Decode
                  reference.decryptBase64EncodedString
                  reference_json.Array_of_StringPairList
                  reference_json.Array_toStringPairList
                  reference_json.Object_of_StringPairList
                  reference_json.Object_toStringPairList
                  nans (fun _ => 0)
                  reference_facts.base64_inverse
                  reference_facts.base64_alphabet
                  reference_facts.iv_alphabet
                  reference_facts.cipher_inverse
                  sample_profile "" reference.pool
                  sample_encrypted_profile sample_encrypted_password []
                  T eq_refl eq_refl E sample_encrypt)).
Defined.

Lemma sample_encrypt_twice :
  reference.encrypt sample_encrypted_profile "" reference.pool
  = (Success, sample_twice_encrypted_profile,
     sample_second_encrypted_password, []).
Proof. vm_compute. reflexivity. Defined.

Lemma second_encryption_encrypts_empty_password_witness :
  reference.encrypt sample_profile "" reference.pool
  = (Success, sample_encrypted_profile, sample_encrypted_password, []) /\
  reference.encrypt sample_encrypted_profile "" reference.pool
  = (Success, sample_twice_encrypted_profile,
     sample_second_encrypted_password, []) /\
  exists profile3,
    reference.decrypt
      sample_twice_encrypted_profile sample_second_encrypted_password
    = (Success, profile3) /\
    password profile3 = EmptyString.
Proof.
  split; [exact sample_encrypt|]. split; [exact sample_encrypt_twice|].
  exact (second_encryption_encrypts_empty_password
           reference.World reference.random
           reference.encryptDataAsBase64EncodedString
           reference.base64Encode reference.base64Decode
           reference.decryptBase64EncodedString
           reference_facts.base64_inverse
           reference_facts.base64_alphabet
           reference_facts.iv_alphabet
           reference_facts.cipher_inverse
           sample_profile "" reference.pool
           sample_encrypted_profile sample_encrypted_password []
           "" reference.pool
           sample_twice_encrypted_profile sample_second_encrypted_password []
           sample_encrypt sample_encrypt_twice).
Defined.

(* ===================================================================== *)
(** * Further properties: the main-process tracker *)
(* ===================================================================== *)

Module tracker_facts.

Import main_process main_process_facts.

Local Open Scope nat_scope.

(** X15.  In any state the process reaches, [isMainThread()] on a thread
    returns true exactly when that thread has called [initThreadId()],
    however many threads have; and it logs "wrong result" exactly when
    that answer differs from whether the thread was the last to call it,
    which is what the system identity says. *)
Theorem isMainThread_in_general
    platform (events : list Event) (self : thread_id) :
  let s := run platform events initial in
  let called := existsb (Nat.eqb self) (init_calls events) in
  isMainThread self s
  = (called,
     if Bool.eqb called (called_last self events) then s
     else LOG_ERROR_MESSAGE "isMainThreadCheck - wrong result!" s).
Proof.
  intros s called.
  pose proof (run_has_flag platform events initial self) as F.
  pose proof (run_mainThreadId platform events initial) as M.
  cbn [has_flag initial t_isMainThread s_mainThreadId orb] in F, M.
  fold s in F, M. fold called in F.
  unfold isMainThread, sysIsMainThread, is_main_id, called_last.
  unfold has_flag in F. rewrite M.
  destruct (t_isMainThread s self); rewrite <- F;
    destruct (last (map Some (init_calls events)) None) as [m|];
    try destruct (Nat.eqb self m); reflexivity.
Qed.

Lemma step_atfork_Unix (ev : Event) (s : State) :
  atfork (step Unix ev s)
  = match ev with
    | call_setupForkHandlers rc _ =>
        if Z.eqb rc 0 then S (atfork s) else atfork s
    | _ => atfork s
    end.
Proof.
  destruct ev as [rc errno|self|self| |self|self]; cbn [step].
  - unfold setupForkHandlers. destruct (Z.eqb rc 0); reflexivity.
  - reflexivity.
  - unfold isMainThread. destruct (negb _); reflexivity.
  - reflexivity.
  - rewrite iter_prepareFork, iter_atForkParent. reflexivity.
  - rewrite iter_prepareFork, iter_atForkChild. reflexivity.
Qed.

Lemma run_forked_after_setup (events : list Event) (s : State) :
  s_wasForked (run Unix events s)
  = s_wasForked s || forked_after_setup (0 <? atfork s) events.
Proof.
  revert s. induction events as [|ev events IH]; intros s;
    cbn [run forked_after_setup].
  - rewrite orb_false_r. reflexivity.
  - rewrite IH, step_wasForked, step_atfork_Unix, <- orb_assoc. f_equal.
    destruct ev as [rc errno|t|t| |t|t]; cbn [orb]; try reflexivity.
    destruct (Z.eqb rc 0).
    + rewrite orb_true_r. reflexivity.
    + rewrite orb_false_r. reflexivity.
Qed.

(** X16.  On Unix, [wasForked()] is true exactly when the process went on
    as the child of a fork at a time when a call of [setupForkHandlers()]
    had succeeded in registering the handlers.  A fork before the
    registration, or after registrations that all failed, leaves it
    false. *)
Theorem wasForked_iff_forked_after_setup (events : list Event) :
  wasForked (run Unix events initial) = forked_after_setup false events.
Proof.
  unfold wasForked. rewrite run_forked_after_setup. reflexivity.
Qed.

End tracker_facts.
